(** * LiquidTWI: the I2C character-LCD driver of LiquidTWI.cpp

    A shallow embedding of the driver class.  The object's fields are a
    record, every member function is a function in a small monad that
    threads the object, counts the calls of [Wire.endTransmission] and
    collects the calls made to the Wire library and to the delay
    primitives.  The retry loop of [burstBits] is the one unbounded loop of
    the program; it is run with fuel. *)

From Stdlib Require Import ZArith List Bool Lia.
Import ListNotations.
Local Open Scope Z_scope.

(** ** Machine integers *)

(** Conversion to [uint8_t] / [byte]. *)
Definition u8 (x : Z) : Z := x mod 256.

Definition is_u8 (x : Z) : Prop := 0 <= x < 256.

(** An integer used as a condition. *)
Definition nonzero (x : Z) : bool := negb (x =? 0).

(** ** Arduino core: binary.h, the pin levels and bitWrite *)

Definition HIGH : Z := 1.
Definition LOW : Z := 0.

Definition B1111 : Z := 0x0F.
Definition B11110000 : Z := 0xF0.
Definition B10011100 : Z := 0x9C.
Definition B10011000 : Z := 0x98.
Definition B10010100 : Z := 0x94.
Definition B10010000 : Z := 0x90.

(** [bitWrite(value, bit, bitvalue)]: set the bit when [bitvalue] is not
    zero, clear it otherwise; the result is stored in a [uint8_t]. *)
Definition bitWrite (value bit bitvalue : Z) : Z :=
  if nonzero bitvalue
  then u8 (Z.lor value (Z.shiftl 1 bit))
  else u8 (Z.land value (Z.lnot (Z.shiftl 1 bit))).

(** ** The macros of LiquidTWI.h

    The header is not among the sources, so the macros it defines are taken
    as parameters: every definition and theorem below is over an arbitrary
    header. *)
Class LiquidTWI_h : Type := {
  MCP23008_ADDRESS : Z;
  MCP23008_IODIR : Z;
  MCP23008_GPIO : Z;
  LCD_CLEARDISPLAY : Z;
  LCD_RETURNHOME : Z;
  LCD_ENTRYMODESET : Z;
  LCD_DISPLAYCONTROL : Z;
  LCD_CURSORSHIFT : Z;
  LCD_FUNCTIONSET : Z;
  LCD_SETCGRAMADDR : Z;
  LCD_SETDDRAMADDR : Z;
  LCD_ENTRYLEFT : Z;
  LCD_ENTRYSHIFTINCREMENT : Z;
  LCD_ENTRYSHIFTDECREMENT : Z;
  LCD_BACKLIGHT : Z;
  LCD_DISPLAYON : Z;
  LCD_CURSORON : Z;
  LCD_BLINKON : Z;
  LCD_DISPLAYMOVE : Z;
  LCD_MOVERIGHT : Z;
  LCD_MOVELEFT : Z;
  LCD_4BITMODE : Z;
  LCD_2LINE : Z;
  LCD_1LINE : Z;
  LCD_5x10DOTS : Z;
  LCD_5x8DOTS : Z
}.

(** The instruction codes of the HD44780 and the register numbers of the
    MCP23008, which the comments of LiquidTWI.cpp refer to (function set
    [0010NF00], backlight flag at bit 3 of [_displaycontrol]).  Used for the
    concrete runs. *)
Definition datasheet : LiquidTWI_h := {|
  MCP23008_ADDRESS := 0x20;
  MCP23008_IODIR := 0x00;
  MCP23008_GPIO := 0x09;
  LCD_CLEARDISPLAY := 0x01;
  LCD_RETURNHOME := 0x02;
  LCD_ENTRYMODESET := 0x04;
  LCD_DISPLAYCONTROL := 0x08;
  LCD_CURSORSHIFT := 0x10;
  LCD_FUNCTIONSET := 0x20;
  LCD_SETCGRAMADDR := 0x40;
  LCD_SETDDRAMADDR := 0x80;
  LCD_ENTRYLEFT := 0x02;
  LCD_ENTRYSHIFTINCREMENT := 0x01;
  LCD_ENTRYSHIFTDECREMENT := 0x00;
  LCD_BACKLIGHT := 0x08;
  LCD_DISPLAYON := 0x04;
  LCD_CURSORON := 0x02;
  LCD_BLINKON := 0x01;
  LCD_DISPLAYMOVE := 0x08;
  LCD_MOVERIGHT := 0x04;
  LCD_MOVELEFT := 0x00;
  LCD_4BITMODE := 0x00;
  LCD_2LINE := 0x08;
  LCD_1LINE := 0x00;
  LCD_5x10DOTS := 0x04;
  LCD_5x8DOTS := 0x00
|}.

(** ** The object *)

Record LiquidTWI : Type := mkLiquidTWI {
  _displayfunction : Z;
  _displaycontrol : Z;
  _displaymode : Z;
  _numlines : Z;
  _currline : Z;
  _i2cAddr : Z
}.

Definition set_displayfunction (x : Z) (l : LiquidTWI) : LiquidTWI :=
  mkLiquidTWI x (_displaycontrol l) (_displaymode l) (_numlines l)
              (_currline l) (_i2cAddr l).
Definition set_displaycontrol (x : Z) (l : LiquidTWI) : LiquidTWI :=
  mkLiquidTWI (_displayfunction l) x (_displaymode l) (_numlines l)
              (_currline l) (_i2cAddr l).
Definition set_displaymode (x : Z) (l : LiquidTWI) : LiquidTWI :=
  mkLiquidTWI (_displayfunction l) (_displaycontrol l) x (_numlines l)
              (_currline l) (_i2cAddr l).
Definition set_numlines (x : Z) (l : LiquidTWI) : LiquidTWI :=
  mkLiquidTWI (_displayfunction l) (_displaycontrol l) (_displaymode l) x
              (_currline l) (_i2cAddr l).
Definition set_currline (x : Z) (l : LiquidTWI) : LiquidTWI :=
  mkLiquidTWI (_displayfunction l) (_displaycontrol l) (_displaymode l)
              (_numlines l) x (_i2cAddr l).
Definition set_i2cAddr (x : Z) (l : LiquidTWI) : LiquidTWI :=
  mkLiquidTWI (_displayfunction l) (_displaycontrol l) (_displaymode l)
              (_numlines l) (_currline l) x.

(** ** Calls to the collaborators *)

Inductive event : Type :=
| WireBegin
| BeginTransmission (address : Z)
| Write (data : Z)
| EndTransmission (status : Z)
| Delay (ms : Z)
| DelayMicroseconds (us : Z).

(** ** The monad of member functions

    A member function runs on the object [l] when [t] calls of
    [Wire.endTransmission] have been made so far.  It returns a value, the
    object, the new count and the calls it made; or it is still in the
    retry loop when the fuel is spent; or it has read outside an array. *)

Inductive outcome (A : Type) : Type :=
| Returns (a : A) (l : LiquidTWI) (t : nat) (calls : list event)
| Spins
| OutOfBounds.
Arguments Returns {A} a l t calls.
Arguments Spins {A}.
Arguments OutOfBounds {A}.

Definition M (A : Type) : Type := LiquidTWI -> nat -> outcome A.

Definition ret {A} (a : A) : M A := fun l t => Returns a l t [].

Definition bind {A B} (m : M A) (f : A -> M B) : M B :=
  fun l t =>
    match m l t with
    | Returns a l1 t1 c1 =>
        match f a l1 t1 with
        | Returns b l2 t2 c2 => Returns b l2 t2 (c1 ++ c2)
        | Spins => Spins
        | OutOfBounds => OutOfBounds
        end
    | Spins => Spins
    | OutOfBounds => OutOfBounds
    end.

Declare Scope lcd_scope.
Delimit Scope lcd_scope with lcd.
Notation "x <- m ;; k" := (bind m (fun x => k))
  (at level 61, m at next level, right associativity) : lcd_scope.
Notation "m ;; k" := (bind m (fun _ => k))
  (at level 61, right associativity) : lcd_scope.
Local Open Scope lcd_scope.

Definition gets {A} (f : LiquidTWI -> A) : M A := fun l t => Returns (f l) l t [].
Definition modify (f : LiquidTWI -> LiquidTWI) : M unit :=
  fun l t => Returns tt (f l) t [].
Definition call (e : event) : M unit := fun l t => Returns tt l t [e].
Definition spin {A} : M A := fun _ _ => Spins.
Definition out_of_bounds {A} : M A := fun _ _ => OutOfBounds.

(** [a[i]] for a C array of known extent. *)
Definition index (a : list Z) (i : Z) : M Z :=
  if i <? 0 then out_of_bounds
  else match nth_error a (Z.to_nat i) with
       | Some x => ret x
       | None => out_of_bounds
       end.

(** A counted [for] loop over the indices [ixs]. *)
Fixpoint for_ (ixs : list Z) (body : Z -> M unit) : M unit :=
  match ixs with
  | [] => ret tt
  | i :: ixs' => body i ;; for_ ixs' body
  end.

(** ** The driver *)

Section Driver.

Context {h : LiquidTWI_h}.

(** The bus transport: [Wire_status n] is what the [n]-th call of
    [Wire.endTransmission] returns (zero is success). *)
Variable Wire_status : nat -> Z.

(** Bound on the iterations of one run of the retry loop. *)
Variable fuel : nat.

Definition Wire_begin : M unit := call WireBegin.
Definition Wire_beginTransmission (address : Z) : M unit :=
  call (BeginTransmission address).
Definition Wire_write (data : Z) : M unit := call (Write data).
Definition Wire_endTransmission : M Z :=
  fun l t => Returns (Wire_status t) l (S t) [EndTransmission (Wire_status t)].
Definition delay (ms : Z) : M unit := call (Delay ms).
Definition delayMicroseconds (us : Z) : M unit := call (DelayMicroseconds us).

(** [LiquidTWI::LiquidTWI(uint8_t i2cAddr)].  The constructor assigns two
    fields only; [storage] is what the object's memory holds before. *)
Definition LiquidTWI_ (storage : LiquidTWI) (i2cAddr : Z) : LiquidTWI :=
  let i2cAddr := if i2cAddr >? 7 then 7 else i2cAddr in
  let l := set_i2cAddr i2cAddr storage in
  set_displayfunction
    (u8 (Z.lor (Z.lor LCD_4BITMODE LCD_1LINE) LCD_5x8DOTS)) l.

(** [while (Wire.endTransmission()) ;] *)
Fixpoint while_endTransmission (n : nat) : M unit :=
  match n with
  | O => spin
  | S n' =>
      status <- Wire_endTransmission ;;
      if nonzero status then while_endTransmission n' else ret tt
  end.

(** [void LiquidTWI::burstBits(uint8_t value)] *)
Definition burstBits (value : Z) : M unit :=
  addr <- gets _i2cAddr ;;
  Wire_beginTransmission (Z.lor MCP23008_ADDRESS addr) ;;
  Wire_write MCP23008_GPIO ;;
  Wire_write value ;;
  while_endTransmission fuel.

(** [(_displaycontrol & LCD_BACKLIGHT)?0x80:0x00] *)
Definition backlight_bit (displaycontrol : Z) : Z :=
  if nonzero (Z.land displaycontrol LCD_BACKLIGHT) then 0x80 else 0x00.

(** [void LiquidTWI::send(uint8_t value, uint8_t mode)] *)
Definition send (value mode : Z) : M unit :=
  (* crunch the high 4 bits *)
  let buf := u8 (Z.shiftr (Z.land value B11110000) 1) in
  let buf := if nonzero mode then u8 (Z.lor buf (Z.shiftl 3 1))
             else u8 (Z.lor buf (Z.shiftl 2 1)) in
  dc <- gets _displaycontrol ;;
  let buf := u8 (Z.lor buf (backlight_bit dc)) in
  burstBits buf ;;
  let buf := u8 (Z.land buf (Z.lnot (Z.shiftl 1 2))) in
  burstBits buf ;;
  (* crunch the low 4 bits *)
  let buf := u8 (Z.shiftl (Z.land value B1111) 3) in
  let buf := if nonzero mode then u8 (Z.lor buf (Z.shiftl 3 1))
             else u8 (Z.lor buf (Z.shiftl 2 1)) in
  dc <- gets _displaycontrol ;;
  let buf := u8 (Z.lor buf (backlight_bit dc)) in
  burstBits buf ;;
  let buf := u8 (Z.land buf (Z.lnot (Z.shiftl 1 2))) in
  burstBits buf.

(** [inline void LiquidTWI::command(uint8_t value)] *)
Definition command (value : Z) : M unit := send value LOW.

(** [inline size_t LiquidTWI::write(uint8_t value)] *)
Definition write (value : Z) : M Z := send value HIGH ;; ret 1.

(** [void LiquidTWI::setBacklight(uint8_t status)] *)
Definition setBacklight (status : Z) : M unit :=
  modify (fun l => set_displaycontrol (bitWrite (_displaycontrol l) 3 status) l) ;;
  dc <- gets _displaycontrol ;;
  burstBits (backlight_bit dc).

Definition clear : M unit :=
  command (u8 LCD_CLEARDISPLAY) ;;
  delayMicroseconds 2000.

Definition home : M unit :=
  command (u8 LCD_RETURNHOME) ;;
  delayMicroseconds 2000.

Definition row_offsets : list Z := [0x00; 0x40; 0x14; 0x54].

(** The row that [setCursor] indexes [row_offsets] with. *)
Definition setCursor_row (numlines row : Z) : Z :=
  if row >? numlines then u8 (numlines - 1) else row.

Definition setCursor (col row : Z) : M unit :=
  numlines <- gets _numlines ;;
  let row := setCursor_row numlines row in
  offset <- index row_offsets row ;;
  command (u8 (Z.lor LCD_SETDDRAMADDR (col + offset))).

(** [_displaycontrol &= ~flag] and [_displaycontrol |= flag] *)
Definition displaycontrol_clear (flag : Z) : M unit :=
  modify (fun l =>
    set_displaycontrol (u8 (Z.land (_displaycontrol l) (Z.lnot flag))) l).
Definition displaycontrol_set (flag : Z) : M unit :=
  modify (fun l => set_displaycontrol (u8 (Z.lor (_displaycontrol l) flag)) l).

Definition command_displaycontrol : M unit :=
  dc <- gets _displaycontrol ;;
  command (u8 (Z.lor LCD_DISPLAYCONTROL dc)).

Definition noDisplay : M unit :=
  displaycontrol_clear LCD_DISPLAYON ;; command_displaycontrol.
Definition display : M unit :=
  displaycontrol_set LCD_DISPLAYON ;; command_displaycontrol.
Definition noCursor : M unit :=
  displaycontrol_clear LCD_CURSORON ;; command_displaycontrol.
Definition cursor : M unit :=
  displaycontrol_set LCD_CURSORON ;; command_displaycontrol.
Definition noBlink : M unit :=
  displaycontrol_clear LCD_BLINKON ;; command_displaycontrol.
Definition blink : M unit :=
  displaycontrol_set LCD_BLINKON ;; command_displaycontrol.

Definition scrollDisplayLeft : M unit :=
  command (u8 (Z.lor (Z.lor LCD_CURSORSHIFT LCD_DISPLAYMOVE) LCD_MOVELEFT)).
Definition scrollDisplayRight : M unit :=
  command (u8 (Z.lor (Z.lor LCD_CURSORSHIFT LCD_DISPLAYMOVE) LCD_MOVERIGHT)).

(** [_displaymode &= ~flag] and [_displaymode |= flag] *)
Definition displaymode_clear (flag : Z) : M unit :=
  modify (fun l =>
    set_displaymode (u8 (Z.land (_displaymode l) (Z.lnot flag))) l).
Definition displaymode_set (flag : Z) : M unit :=
  modify (fun l => set_displaymode (u8 (Z.lor (_displaymode l) flag)) l).

Definition command_entrymode : M unit :=
  dm <- gets _displaymode ;;
  command (u8 (Z.lor LCD_ENTRYMODESET dm)).

Definition leftToRight : M unit :=
  displaymode_set LCD_ENTRYLEFT ;; command_entrymode.
Definition rightToLeft : M unit :=
  displaymode_clear LCD_ENTRYLEFT ;; command_entrymode.
Definition autoscroll : M unit :=
  displaymode_set LCD_ENTRYSHIFTINCREMENT ;; command_entrymode.
Definition noAutoscroll : M unit :=
  displaymode_clear LCD_ENTRYSHIFTINCREMENT ;; command_entrymode.

(** [void LiquidTWI::createChar(uint8_t location, uint8_t charmap[])] *)
Definition createChar (location : Z) (charmap : list Z) : M unit :=
  let location := u8 (Z.land location 0x7) in
  command (u8 (Z.lor LCD_SETCGRAMADDR (Z.shiftl location 3))) ;;
  for_ (map Z.of_nat (seq 0 8))
       (fun i => c <- index charmap i ;; write c ;; ret tt).

(** [_displayfunction |= flag] *)
Definition displayfunction_set (flag : Z) : M unit :=
  modify (fun l =>
    set_displayfunction (u8 (Z.lor (_displayfunction l) flag)) l).

Definition command_functionset : M unit :=
  df <- gets _displayfunction ;;
  command (u8 (Z.lor LCD_FUNCTIONSET df)).

(** The two transmissions that configure the expander. *)
Definition begin_expander : M unit :=
  addr <- gets _i2cAddr ;;
  Wire_beginTransmission (Z.lor MCP23008_ADDRESS addr) ;;
  Wire_write (u8 MCP23008_IODIR) ;;
  Wire_write (u8 0xFF) ;;
  Wire_write (u8 0x00) ;;
  Wire_write (u8 0x00) ;;
  Wire_write (u8 0x00) ;;
  Wire_write (u8 0x00) ;;
  Wire_write (u8 0x00) ;;
  Wire_write (u8 0x00) ;;
  Wire_write (u8 0x00) ;;
  Wire_write (u8 0x00) ;;
  Wire_write (u8 0x00) ;;
  Wire_endTransmission ;;
  Wire_beginTransmission (Z.lor MCP23008_ADDRESS addr) ;;
  Wire_write (u8 MCP23008_IODIR) ;;
  Wire_write (u8 0x00) ;;
  Wire_endTransmission ;;
  ret tt.

(** The software reset that puts the LCD into 4 bit mode. *)
Definition begin_4bitmode : M unit :=
  burstBits B10011100 ;;
  burstBits B10011000 ;;
  burstBits B10011100 ;;
  burstBits B10011000 ;;
  burstBits B10011100 ;;
  burstBits B10011000 ;;
  burstBits B10010100 ;;
  burstBits B10010000.

(** [void LiquidTWI::begin(uint8_t cols, uint8_t lines, uint8_t dotsize)] *)
Definition begin (cols lines dotsize : Z) : M unit :=
  delay 50 ;;
  Wire_begin ;;
  begin_expander ;;
  (if lines >? 1 then displayfunction_set LCD_2LINE else ret tt) ;;
  modify (set_numlines lines) ;;
  modify (set_currline 0) ;;
  (if nonzero dotsize && (lines =? 1)
   then displayfunction_set LCD_5x10DOTS else ret tt) ;;
  begin_4bitmode ;;
  delay 5 ;;
  command_functionset ;;
  delay 5 ;;
  command_functionset ;;
  delay 5 ;;
  modify (set_displaycontrol (u8 LCD_DISPLAYON)) ;;
  display ;;
  clear ;;
  modify (set_displaymode (u8 (Z.lor LCD_ENTRYLEFT LCD_ENTRYSHIFTDECREMENT))) ;;
  command_entrymode ;;
  setBacklight HIGH.

(** The public member functions, as calls. *)
Inductive method : Type :=
| m_begin (cols lines dotsize : Z)
| m_clear
| m_home
| m_setCursor (col row : Z)
| m_noDisplay
| m_display
| m_noCursor
| m_cursor
| m_noBlink
| m_blink
| m_scrollDisplayLeft
| m_scrollDisplayRight
| m_leftToRight
| m_rightToLeft
| m_autoscroll
| m_noAutoscroll
| m_createChar (location : Z) (charmap : list Z)
| m_command (value : Z)
| m_write (value : Z)
| m_setBacklight (status : Z).

Definition invoke (m : method) : M unit :=
  match m with
  | m_begin cols lines dotsize => begin cols lines dotsize
  | m_clear => clear
  | m_home => home
  | m_setCursor col row => setCursor col row
  | m_noDisplay => noDisplay
  | m_display => display
  | m_noCursor => noCursor
  | m_cursor => cursor
  | m_noBlink => noBlink
  | m_blink => blink
  | m_scrollDisplayLeft => scrollDisplayLeft
  | m_scrollDisplayRight => scrollDisplayRight
  | m_leftToRight => leftToRight
  | m_rightToLeft => rightToLeft
  | m_autoscroll => autoscroll
  | m_noAutoscroll => noAutoscroll
  | m_createChar location charmap => createChar location charmap
  | m_command value => command value
  | m_write value => write value ;; ret tt
  | m_setBacklight status => setBacklight status
  end.

(** A sketch: one call after the other. *)
Fixpoint sketch (ms : list method) : M unit :=
  match ms with
  | [] => ret tt
  | m :: ms' => invoke m ;; sketch ms'
  end.

End Driver.

(** ** What is observed on the bus *)

(** The calls a member function made, without the status reads of
    [Wire.endTransmission]: how often the retry loop turned is the
    transport's doing, what is put on the bus is the driver's. *)
Definition is_EndTransmission (e : event) : bool :=
  match e with EndTransmission _ => true | _ => false end.

Definition requests (calls : list event) : list event :=
  filter (fun e => negb (is_EndTransmission e)) calls.

(** One write of [value] to the expander's GPIO register, and a run of
    them. *)
Definition burst {h : LiquidTWI_h} (addr value : Z) : list event :=
  [BeginTransmission (Z.lor MCP23008_ADDRESS addr); Write MCP23008_GPIO;
   Write value].

Definition bursts {h : LiquidTWI_h} (addr : Z) (values : list Z) : list event :=
  flat_map (burst addr) values.

(** The expander's pins, as the comment in [begin] draws them:
    bit 7 backlight, bits 6..3 the data lines D7..D4, bit 2 enable,
    bit 1 RS, bit 0 not connected. *)
Definition pins (lite : bool) (nibble : Z) (enable rs : bool) : Z :=
  128 * Z.b2z lite + 8 * nibble + 4 * Z.b2z enable + 2 * Z.b2z rs.

(** A byte as two nibbles, each presented with enable high, then low. *)
Definition nibble_pairs (lite : bool) (value : Z) (rs : bool) : list Z :=
  [pins lite (value / 16) true rs; pins lite (value / 16) false rs;
   pins lite (value mod 16) true rs; pins lite (value mod 16) false rs].

(** Whether the object's backlight flag is on. *)
Definition lit {h : LiquidTWI_h} (l : LiquidTWI) : bool :=
  nonzero (Z.land (_displaycontrol l) LCD_BACKLIGHT).

(** The transport acknowledges within [fuel] attempts, whenever asked. *)
Definition responsive (Wire_status : nat -> Z) (fuel : nat) : Prop :=
  forall t, exists k, (k < fuel)%nat /\ Wire_status (t + k)%nat = 0.

(** [m], run on [l], returns [a] and leaves the object [l'], whatever the
    number of earlier transmissions. *)
Definition returns {A} (m : M A) (l : LiquidTWI) (a : A) (l' : LiquidTWI) : Prop :=
  forall t, exists t' calls, m l t = Returns a l' t' calls.

(** The same, and the requests it made are [rs]. *)
Definition performs {A} (m : M A) (l : LiquidTWI) (a : A) (l' : LiquidTWI)
    (rs : list event) : Prop :=
  forall t, exists t' calls,
    m l t = Returns a l' t' calls /\ requests calls = rs.

(** A transport that always acknowledges at once, one that never does,
    and one that fails the first [n] attempts. *)
Definition always_ack : nat -> Z := fun _ => 0.
Definition stuck : nat -> Z := fun _ => 2.
Definition nack_first (n : nat) : nat -> Z :=
  fun t => if (t <? n)%nat then 2 else 0.

(** The values written to the expander's GPIO register, in order. *)
Fixpoint gpio_values {h : LiquidTWI_h} (rs : list event) : list Z :=
  match rs with
  | [] => []
  | BeginTransmission _ :: (Write r :: Write v :: rs'') as rs' =>
      if r =? MCP23008_GPIO then v :: gpio_values rs'' else gpio_values rs'
  | _ :: rs' => gpio_values rs'
  end.

(** The member functions without arguments: the display, cursor, blink,
    scroll and entry-mode controls, [clear] and [home]. *)
Definition control (m : method) : bool :=
  match m with
  | m_clear | m_home
  | m_noDisplay | m_display | m_noCursor | m_cursor | m_noBlink | m_blink
  | m_scrollDisplayLeft | m_scrollDisplayRight
  | m_leftToRight | m_rightToLeft | m_autoscroll | m_noAutoscroll => true
  | _ => false
  end.

(** The eight bursts of the software reset, as [begin] writes them. *)
Definition handshake : list Z :=
  [0x9C; 0x98; 0x9C; 0x98; 0x9C; 0x98; 0x94; 0x90].

(** What [begin] puts on the bus to configure the expander. *)
Definition expander_requests {h : LiquidTWI_h} (addr : Z) : list event :=
  [BeginTransmission (Z.lor MCP23008_ADDRESS addr);
   Write (u8 MCP23008_IODIR); Write 0xFF;
   Write 0; Write 0; Write 0; Write 0; Write 0; Write 0; Write 0; Write 0;
   Write 0;
   BeginTransmission (Z.lor MCP23008_ADDRESS addr);
   Write (u8 MCP23008_IODIR); Write 0].

(** [_displayfunction] after the two conditional assignments of [begin]. *)
Definition begin_displayfunction {h : LiquidTWI_h} (df lines dotsize : Z) : Z :=
  let df := if lines >? 1 then u8 (Z.lor df LCD_2LINE) else df in
  if nonzero dotsize && (lines =? 1) then u8 (Z.lor df LCD_5x10DOTS) else df.

(** The object that [begin] leaves. *)
Definition begun {h : LiquidTWI_h} (l : LiquidTWI) (lines dotsize : Z) : LiquidTWI :=
  {| _displayfunction := begin_displayfunction (_displayfunction l) lines dotsize;
     _displaycontrol :=
       bitWrite (u8 (Z.lor (u8 LCD_DISPLAYON) LCD_DISPLAYON)) 3 HIGH;
     _displaymode := u8 (Z.lor LCD_ENTRYLEFT LCD_ENTRYSHIFTDECREMENT);
     _numlines := lines;
     _currline := 0;
     _i2cAddr := _i2cAddr l |}.

(** What a command byte and a data byte look like on the bus, for the
    object [l]: four GPIO writes, RS low for a command and high for data. *)
Definition command_traffic {h : LiquidTWI_h} (l : LiquidTWI) (value : Z) : list event :=
  bursts (_i2cAddr l) (nibble_pairs (lit l) value false).

Definition data_traffic {h : LiquidTWI_h} (l : LiquidTWI) (value : Z) : list event :=
  bursts (_i2cAddr l) (nibble_pairs (lit l) value true).

(** The set-DDRAM-address command for the address [ddram]. *)
Definition set_DDRAM_address {h : LiquidTWI_h} (l : LiquidTWI) (ddram : Z) : list event :=
  command_traffic l (u8 (Z.lor LCD_SETDDRAMADDR ddram)).

(** An object whose memory is all zero, as a global has it before its
    constructor runs. *)
Definition zeroed : LiquidTWI := mkLiquidTWI 0 0 0 0 0 0.

(** The header facts behind the backlight flag: [LCD_BACKLIGHT] is the bit
    that [setBacklight] writes with [bitWrite(_displaycontrol,3,status)],
    and the display, cursor and blink flags are other bits. *)
Definition backlight_is_bit3 {h : LiquidTWI_h} : Prop :=
  LCD_BACKLIGHT = 0x08 /\
  Z.testbit LCD_DISPLAYON 3 = false /\
  Z.testbit LCD_CURSORON 3 = false /\
  Z.testbit LCD_BLINKON 3 = false.

(** A run of [begin] calls, each with its columns, lines and dot size. *)
Definition begins (args : list (Z * Z * Z)) : list method :=
  map (fun '(cols, lines, dotsize) => m_begin cols lines dotsize) args.

(** A member function that leaves [_i2cAddr] as it found it. *)
Definition keeps_i2cAddr {A} (m : M A) : Prop :=
  forall l t a l' t' calls,
    m l t = Returns a l' t' calls -> _i2cAddr l' = _i2cAddr l.

(** The flag fields after [|= flag] and after [&= ~flag]. *)
Definition displaycontrol_with (l : LiquidTWI) (flag : Z) : Z :=
  u8 (Z.lor (_displaycontrol l) flag).
Definition displaycontrol_without (l : LiquidTWI) (flag : Z) : Z :=
  u8 (Z.land (_displaycontrol l) (Z.lnot flag)).
Definition displaymode_with (l : LiquidTWI) (flag : Z) : Z :=
  u8 (Z.lor (_displaymode l) flag).
Definition displaymode_without (l : LiquidTWI) (flag : Z) : Z :=
  u8 (Z.land (_displaymode l) (Z.lnot flag)).

(** What holds of every run of [m] on [l] that returns: of its value, of
    the object it leaves and of the requests it made. *)
Definition post {A} (m : M A) (l : LiquidTWI)
    (Q : A -> LiquidTWI -> list event -> Prop) : Prop :=
  forall t a l' t' calls,
    m l t = Returns a l' t' calls -> Q a l' (requests calls).

(** A request log made of GPIO writes whose backlight bit is [b] and of
    waits. *)
Inductive carries {h : LiquidTWI_h} (b : bool) : list event -> Prop :=
| carries_nil : carries b []
| carries_burst a v rs :
    Z.testbit v 7 = b -> carries b rs -> carries b (burst a v ++ rs)
| carries_wait us rs :
    carries b rs -> carries b (DelayMicroseconds us :: rs).

(** A member function that leaves the backlight flag as it found it and
    shows it in every GPIO byte. *)
Definition keeps_backlight {h : LiquidTWI_h} {A} (m : M A) : Prop :=
  forall l, post m l (fun _ l' rs => lit l' = lit l /\ carries (lit l) rs).

(** The member functions that assign the backlight flag. *)
Definition assigns_backlight (m : method) : bool :=
  match m with
  | m_begin _ _ _ | m_setBacklight _ => true
  | _ => false
  end.

(** The three flags of [_displaycontrol] that have a member function to
    switch them on and one to switch them off, and the two of
    [_displaymode]. *)
Inductive control_flag : Type := DisplayOn | CursorOn | BlinkOn.

Definition control_mask {h : LiquidTWI_h} (c : control_flag) : Z :=
  match c with
  | DisplayOn => LCD_DISPLAYON
  | CursorOn => LCD_CURSORON
  | BlinkOn => LCD_BLINKON
  end.

Definition switch_on (c : control_flag) : method :=
  match c with
  | DisplayOn => m_display
  | CursorOn => m_cursor
  | BlinkOn => m_blink
  end.

Definition switch_off (c : control_flag) : method :=
  match c with
  | DisplayOn => m_noDisplay
  | CursorOn => m_noCursor
  | BlinkOn => m_noBlink
  end.

Inductive mode_flag : Type := EntryLeft | ShiftIncrement.

Definition mode_mask {h : LiquidTWI_h} (c : mode_flag) : Z :=
  match c with
  | EntryLeft => LCD_ENTRYLEFT
  | ShiftIncrement => LCD_ENTRYSHIFTINCREMENT
  end.

Definition mode_on (c : mode_flag) : method :=
  match c with
  | EntryLeft => m_leftToRight
  | ShiftIncrement => m_autoscroll
  end.

Definition mode_off (c : mode_flag) : method :=
  match c with
  | EntryLeft => m_rightToLeft
  | ShiftIncrement => m_noAutoscroll
  end.

(** The member functions with an assignment to a field in their body or
    in a function they call. *)
Definition assigns_fields (m : method) : bool :=
  match m with
  | m_begin _ _ _
  | m_noDisplay | m_display | m_noCursor | m_cursor | m_noBlink | m_blink
  | m_leftToRight | m_rightToLeft | m_autoscroll | m_noAutoscroll
  | m_setBacklight _ => true
  | _ => false
  end.

(** A call that, if it opens a transmission, opens it to the device [a]. *)
Definition addressed_to (a : Z) (e : event) : Prop :=
  match e with
  | BeginTransmission x => x = a
  | _ => True
  end.

(** A member function all of whose returning runs relate the object
    before, the object after and the requests made by [R]. *)
Definition framed {A} (R : LiquidTWI -> LiquidTWI -> list event -> Prop)
    (m : M A) : Prop :=
  forall l, post m l (fun _ l' rs => R l l' rs).

(** The object is left as it was. *)
Definition same_object (l l' : LiquidTWI) (rs : list event) : Prop := l' = l.

(** The bus address is left as it was and every transmission is opened to
    the device it selects. *)
Definition own_device {h : LiquidTWI_h} (l l' : LiquidTWI) (rs : list event) : Prop :=
  _i2cAddr l' = _i2cAddr l /\
  Forall (addressed_to (Z.lor MCP23008_ADDRESS (_i2cAddr l))) rs.

(** Two programs that, started on the same object, return the same value,
    leave the same object and make the same requests whenever both return,
    whatever the number of earlier transmissions of each. *)
Definition agree {A} (m1 m2 : M A) : Prop :=
  forall l t1 t2 a1 l1 t1' c1 a2 l2 t2' c2,
    m1 l t1 = Returns a1 l1 t1' c1 ->
    m2 l t2 = Returns a2 l2 t2' c2 ->
    a1 = a2 /\ l1 = l2 /\ requests c1 = requests c2.

(** A member function none of whose runs returns. *)
Definition never_returns {A} (m : M A) : Prop :=
  forall l, post m l (fun _ _ _ => False).

(** The arguments of a call are in range for the object [l]: bytes where
    the parameter is a [uint8_t] that is sent, a row that [setCursor] finds
    in [row_offsets], a character map of eight rows. *)
Definition in_range (l : LiquidTWI) (m : method) : Prop :=
  match m with
  | m_setCursor _ row => 0 <= setCursor_row (_numlines l) row < 4
  | m_createChar _ charmap => (8 <= length charmap)%nat /\ Forall is_u8 charmap
  | m_command value | m_write value => is_u8 value
  | _ => True
  end.

(** * Properties *)

(** ** Bytes *)

Lemma u8_range x : is_u8 (u8 x).
Proof. unfold is_u8, u8. apply Z.mod_pos_bound. lia. Qed.

Lemma u8_small x : is_u8 x -> u8 x = x.
Proof. unfold is_u8, u8. intros H. apply Z.mod_small. exact H. Qed.

(** A boolean property checked on the 256 bytes holds of every byte. *)
Lemma forall_u8 (P : Z -> bool) :
  forallb P (map Z.of_nat (seq 0 256)) = true ->
  forall x, is_u8 x -> P x = true.
Proof.
  intros Hall x [Hlo Hhi].
  rewrite forallb_forall in Hall. apply Hall.
  apply in_map_iff. exists (Z.to_nat x). split.
  - apply Z2Nat.id. exact Hlo.
  - apply in_seq. lia.
Qed.

(** Closes an equation between byte expressions in [v] by evaluating both
    sides on the 256 bytes. *)
Ltac by_bytes_bool v Hv :=
  match goal with
  | |- ?b = true =>
      let P := eval pattern v in b in
      match P with
      | ?f _ => refine (forall_u8 f _ v Hv); vm_compute; reflexivity
      end
  end.

Ltac by_bytes v Hv :=
  match goal with
  | |- _ = true => by_bytes_bool v Hv
  | |- _ = false => apply Bool.negb_true_iff; by_bytes_bool v Hv
  | |- _ = _ => apply Z.eqb_eq; by_bytes_bool v Hv
  end.

(** The same for an equation between lists, entry by entry. *)
Ltac list_by_bytes v Hv :=
  repeat (apply (f_equal2 (@cons _)); [by_bytes v Hv|]); reflexivity.

(** ** The request log *)

Lemma requests_app c1 c2 : requests (c1 ++ c2) = requests c1 ++ requests c2.
Proof. unfold requests. apply filter_app. Qed.

Lemma bursts_app {h : LiquidTWI_h} addr v1 v2 :
  bursts addr (v1 ++ v2) = bursts addr v1 ++ bursts addr v2.
Proof. unfold bursts. apply flat_map_app. Qed.

(** ** A program logic for [performs] *)

Section Logic.

Context {h : LiquidTWI_h}.
Variable Wire_status : nat -> Z.
Variable fuel : nat.

Lemma performs_returns {A} (m : M A) l a l' rs :
  performs m l a l' rs -> returns m l a l'.
Proof.
  intros H t. destruct (H t) as (t' & calls & E & _). eauto.
Qed.

Lemma returns_ret {A} (a : A) l : returns (ret a) l a l.
Proof. intros t. exists t, []. reflexivity. Qed.

Lemma returns_bind {A B} (m : M A) (f : A -> M B) l a l1 b l2 :
  returns m l a l1 -> returns (f a) l1 b l2 -> returns (bind m f) l b l2.
Proof.
  intros Hm Hf t.
  destruct (Hm t) as (t1 & c1 & E1).
  destruct (Hf t1) as (t2 & c2 & E2).
  exists t2, (c1 ++ c2). unfold bind. rewrite E1, E2. reflexivity.
Qed.

Lemma performs_ret {A} (a : A) l : performs (ret a) l a l [].
Proof. intros t. exists t, []. split; reflexivity. Qed.

Lemma performs_bind {A B} (m : M A) (f : A -> M B) l a l1 r1 b l2 r2 :
  performs m l a l1 r1 ->
  performs (f a) l1 b l2 r2 ->
  performs (bind m f) l b l2 (r1 ++ r2).
Proof.
  intros Hm Hf t.
  destruct (Hm t) as (t1 & c1 & E1 & R1).
  destruct (Hf t1) as (t2 & c2 & E2 & R2).
  exists t2, (c1 ++ c2). unfold bind. rewrite E1, E2.
  split; [reflexivity|]. rewrite requests_app, R1, R2. reflexivity.
Qed.

Lemma performs_gets {A} (f : LiquidTWI -> A) l : performs (gets f) l (f l) l [].
Proof. intros t. exists t, []. split; reflexivity. Qed.

Lemma performs_modify f l : performs (modify f) l tt (f l) [].
Proof. intros t. exists t, []. split; reflexivity. Qed.

Lemma performs_call e l :
  is_EndTransmission e = false -> performs (call e) l tt l [e].
Proof.
  intros He t. exists t, [e]. split; [reflexivity|].
  unfold requests. simpl. rewrite He. reflexivity.
Qed.

Lemma performs_eq {A} (m : M A) l a l1 l2 r1 r2 :
  performs m l a l1 r1 -> l1 = l2 -> r1 = r2 -> performs m l a l2 r2.
Proof. intros H <- <-. exact H. Qed.

(** *** The retry loop *)

(** With an acknowledgement [k] attempts ahead and more fuel than that,
    the loop returns at the first acknowledgement, after reading the
    statuses up to it. *)
Lemma while_endTransmission_returns l k :
  forall n t,
    (k < n)%nat ->
    Wire_status (t + k)%nat = 0 ->
    exists j,
      (j <= k)%nat /\
      Wire_status (t + j)%nat = 0 /\
      (forall i, (i < j)%nat -> Wire_status (t + i)%nat <> 0) /\
      while_endTransmission Wire_status n l t =
        Returns tt l (t + j + 1)
          (map (fun i => EndTransmission (Wire_status (t + i)%nat))
               (seq 0 (S j))).
Proof.
  induction k as [|k IH]; intros n t Hn Hk.
  - destruct n as [|n]; [lia|].
    exists 0%nat. rewrite Nat.add_0_r in *.
    repeat split; [lia | exact Hk | intros i Hi; lia |].
    simpl. unfold bind, Wire_endTransmission, nonzero.
    rewrite Nat.add_0_r, Hk. simpl. rewrite Nat.add_1_r. reflexivity.
  - destruct n as [|n]; [lia|].
    destruct (Z.eq_dec (Wire_status t) 0) as [E|E].
    + exists 0%nat. rewrite Nat.add_0_r.
      repeat split; [lia | exact E | intros i Hi; lia |].
      simpl. unfold bind, Wire_endTransmission, nonzero.
      rewrite Nat.add_0_r, E. simpl. rewrite Nat.add_1_r. reflexivity.
    + destruct (IH n (S t)) as (j & Hj & Hz & Hnz & Hrun); [lia | |].
      { rewrite <- Hk. f_equal. lia. }
      exists (S j). repeat split.
      * lia.
      * rewrite <- Hz. f_equal. lia.
      * intros i Hi. destruct i as [|i].
        -- rewrite Nat.add_0_r. exact E.
        -- replace (t + S i)%nat with (S t + i)%nat by lia. apply Hnz. lia.
      * cbn [while_endTransmission].
        unfold bind at 1, Wire_endTransmission at 1, nonzero.
        rewrite (proj2 (Z.eqb_neq _ _) E). cbn [negb]. rewrite Hrun.
        f_equal; [lia|].
        change (seq 0 (S (S j))) with (0%nat :: seq 1 (S j)).
        rewrite <- seq_shift. cbn [map app].
        rewrite map_map, Nat.add_0_r. f_equal.
        apply map_ext. intros i. do 2 f_equal. lia.
Qed.

(** Without any acknowledgement ahead the loop uses up whatever fuel it
    is given. *)
Lemma while_endTransmission_spins l :
  forall n t,
    (forall k, Wire_status (t + k)%nat <> 0) ->
    while_endTransmission Wire_status n l t = Spins.
Proof.
  induction n as [|n IH]; intros t Hnever; [reflexivity|].
  simpl. unfold bind, Wire_endTransmission, nonzero.
  assert (E : Wire_status t <> 0).
  { specialize (Hnever 0%nat). rewrite Nat.add_0_r in Hnever. exact Hnever. }
  rewrite (proj2 (Z.eqb_neq _ _) E). simpl.
  rewrite IH; [reflexivity|].
  intros k. replace (S t + k)%nat with (t + S k)%nat by lia. apply Hnever.
Qed.

Lemma requests_EndTransmissions (f : nat -> Z) ns :
  requests (map (fun i => EndTransmission (f i)) ns) = [].
Proof. induction ns as [|n ns IH]; [reflexivity | exact IH]. Qed.

Hypothesis Wire_responsive : responsive Wire_status fuel.

Lemma performs_while_endTransmission l :
  performs (while_endTransmission Wire_status fuel) l tt l [].
Proof.
  intros t. destruct (Wire_responsive t) as (k & Hk & Hz).
  destruct (while_endTransmission_returns l k fuel t Hk Hz)
    as (j & _ & _ & _ & Hrun).
  eexists _, _. split; [exact Hrun|].
  apply (requests_EndTransmissions (fun i => Wire_status (t + i)%nat)).
Qed.

Lemma performs_burstBits value l :
  performs (burstBits Wire_status fuel value) l tt l (burst (_i2cAddr l) value).
Proof.
  unfold burstBits.
  eapply performs_eq.
  - eapply performs_bind; [apply performs_gets|].
    eapply performs_bind; [apply performs_call; reflexivity|].
    eapply performs_bind; [apply performs_call; reflexivity|].
    eapply performs_bind; [apply performs_call; reflexivity|].
    apply performs_while_endTransmission.
  - reflexivity.
  - reflexivity.
Qed.

(** *** Sending a byte *)

Lemma performs_send value mode l :
  is_u8 value ->
  performs (send Wire_status fuel value mode) l tt l
    (bursts (_i2cAddr l) (nibble_pairs (lit l) value (nonzero mode))).
Proof.
  intros Hv. unfold send.
  eapply performs_eq.
  - eapply performs_bind; [apply performs_gets|].
    eapply performs_bind; [apply performs_burstBits|].
    eapply performs_bind; [apply performs_burstBits|].
    eapply performs_bind; [apply performs_gets|].
    eapply performs_bind; [apply performs_burstBits|].
    apply performs_burstBits.
  - reflexivity.
  - unfold bursts, nibble_pairs, lit, backlight_bit. cbn [flat_map app].
    destruct (nonzero mode), (nonzero (Z.land (_displaycontrol l) LCD_BACKLIGHT));
      unfold burst; cbn [app]; repeat f_equal; by_bytes value Hv.
Qed.

Lemma performs_command value l :
  is_u8 value ->
  performs (command Wire_status fuel value) l tt l
    (bursts (_i2cAddr l) (nibble_pairs (lit l) value false)).
Proof. intros Hv. apply (performs_send value LOW l Hv). Qed.

Lemma performs_write value l :
  is_u8 value ->
  performs (write Wire_status fuel value) l 1 l
    (bursts (_i2cAddr l) (nibble_pairs (lit l) value true)).
Proof.
  intros Hv. unfold write.
  eapply performs_eq.
  - eapply performs_bind; [apply (performs_send value HIGH l Hv)|].
    apply performs_ret.
  - reflexivity.
  - apply app_nil_r.
Qed.

(** *** The member functions *)

Ltac perform :=
  repeat first
    [ apply performs_ret
    | apply performs_gets
    | apply performs_modify
    | apply performs_call; reflexivity
    | apply performs_burstBits
    | apply performs_command; apply u8_range
    | eapply performs_bind ].

Lemma performs_setBacklight status l :
  let l' := set_displaycontrol (bitWrite (_displaycontrol l) 3 status) l in
  performs (setBacklight Wire_status fuel status) l tt l'
    (burst (_i2cAddr l) (backlight_bit (_displaycontrol l'))).
Proof.
  intros l'. unfold setBacklight.
  eapply performs_eq; [perform | reflexivity | reflexivity].
Qed.

Lemma performs_clear l :
  performs (clear Wire_status fuel) l tt l
    (bursts (_i2cAddr l) (nibble_pairs (lit l) (u8 LCD_CLEARDISPLAY) false)
     ++ [DelayMicroseconds 2000]).
Proof.
  unfold clear, delayMicroseconds.
  eapply performs_eq; [perform | reflexivity | reflexivity].
Qed.

Lemma performs_home l :
  performs (home Wire_status fuel) l tt l
    (bursts (_i2cAddr l) (nibble_pairs (lit l) (u8 LCD_RETURNHOME) false)
     ++ [DelayMicroseconds 2000]).
Proof.
  unfold home, delayMicroseconds.
  eapply performs_eq; [perform | reflexivity | reflexivity].
Qed.

Lemma performs_command_displaycontrol l :
  performs (command_displaycontrol Wire_status fuel) l tt l
    (bursts (_i2cAddr l)
       (nibble_pairs (lit l) (u8 (Z.lor LCD_DISPLAYCONTROL (_displaycontrol l)))
          false)).
Proof.
  unfold command_displaycontrol.
  eapply performs_eq; [perform | reflexivity | reflexivity].
Qed.

Lemma performs_command_entrymode l :
  performs (command_entrymode Wire_status fuel) l tt l
    (bursts (_i2cAddr l)
       (nibble_pairs (lit l) (u8 (Z.lor LCD_ENTRYMODESET (_displaymode l)))
          false)).
Proof.
  unfold command_entrymode.
  eapply performs_eq; [perform | reflexivity | reflexivity].
Qed.

Lemma performs_command_functionset l :
  performs (command_functionset Wire_status fuel) l tt l
    (bursts (_i2cAddr l)
       (nibble_pairs (lit l) (u8 (Z.lor LCD_FUNCTIONSET (_displayfunction l)))
          false)).
Proof.
  unfold command_functionset.
  eapply performs_eq; [perform | reflexivity | reflexivity].
Qed.

Lemma performs_displaycontrol_set flag l :
  let l' := set_displaycontrol (u8 (Z.lor (_displaycontrol l) flag)) l in
  performs (displaycontrol_set flag ;; command_displaycontrol Wire_status fuel)
    l tt l'
    (bursts (_i2cAddr l)
       (nibble_pairs (lit l') (u8 (Z.lor LCD_DISPLAYCONTROL (_displaycontrol l')))
          false)).
Proof.
  intros l'. unfold displaycontrol_set.
  eapply performs_eq;
    [ eapply performs_bind;
      [apply performs_modify | apply performs_command_displaycontrol]
    | reflexivity | reflexivity ].
Qed.

Lemma performs_displaycontrol_clear flag l :
  let l' :=
    set_displaycontrol (u8 (Z.land (_displaycontrol l) (Z.lnot flag))) l in
  performs (displaycontrol_clear flag ;; command_displaycontrol Wire_status fuel)
    l tt l'
    (bursts (_i2cAddr l)
       (nibble_pairs (lit l') (u8 (Z.lor LCD_DISPLAYCONTROL (_displaycontrol l')))
          false)).
Proof.
  intros l'. unfold displaycontrol_clear.
  eapply performs_eq;
    [ eapply performs_bind;
      [apply performs_modify | apply performs_command_displaycontrol]
    | reflexivity | reflexivity ].
Qed.

Lemma performs_displaymode_set flag l :
  let l' := set_displaymode (u8 (Z.lor (_displaymode l) flag)) l in
  performs (displaymode_set flag ;; command_entrymode Wire_status fuel) l tt l'
    (bursts (_i2cAddr l)
       (nibble_pairs (lit l) (u8 (Z.lor LCD_ENTRYMODESET (_displaymode l')))
          false)).
Proof.
  intros l'. unfold displaymode_set.
  eapply performs_eq;
    [ eapply performs_bind;
      [apply performs_modify | apply performs_command_entrymode]
    | reflexivity | reflexivity ].
Qed.

Lemma performs_displaymode_clear flag l :
  let l' := set_displaymode (u8 (Z.land (_displaymode l) (Z.lnot flag))) l in
  performs (displaymode_clear flag ;; command_entrymode Wire_status fuel) l tt l'
    (bursts (_i2cAddr l)
       (nibble_pairs (lit l) (u8 (Z.lor LCD_ENTRYMODESET (_displaymode l')))
          false)).
Proof.
  intros l'. unfold displaymode_clear.
  eapply performs_eq;
    [ eapply performs_bind;
      [apply performs_modify | apply performs_command_entrymode]
    | reflexivity | reflexivity ].
Qed.

Lemma performs_setCursor col row l offset :
  nth_error row_offsets (Z.to_nat (setCursor_row (_numlines l) row)) = Some offset ->
  0 <= setCursor_row (_numlines l) row ->
  performs (setCursor Wire_status fuel col row) l tt l
    (bursts (_i2cAddr l)
       (nibble_pairs (lit l) (u8 (Z.lor LCD_SETDDRAMADDR (col + offset))) false)).
Proof.
  intros Hnth Hrow. unfold setCursor.
  eapply performs_eq.
  - eapply performs_bind; [apply performs_gets|].
    eapply performs_bind with (a := offset) (l1 := l) (r1 := []).
    + unfold index. rewrite (proj2 (Z.ltb_ge _ _) Hrow), Hnth.
      apply performs_ret.
    + apply performs_command. apply u8_range.
  - reflexivity.
  - reflexivity.
Qed.

Lemma performs_begin_expander l :
  performs (begin_expander Wire_status) l tt l (expander_requests (_i2cAddr l)).
Proof. intros t. eexists _, _. split; reflexivity. Qed.

Lemma performs_begin_4bitmode l :
  performs (begin_4bitmode Wire_status fuel) l tt l
    (bursts (_i2cAddr l) handshake).
Proof.
  unfold begin_4bitmode.
  eapply performs_eq; [perform | reflexivity | reflexivity].
Qed.

(** Everything [begin] puts on the bus and the object it leaves. *)
Lemma performs_begin cols lines dotsize l :
  let a := _i2cAddr l in
  let fs :=
    u8 (Z.lor LCD_FUNCTIONSET
          (begin_displayfunction (_displayfunction l) lines dotsize)) in
  let dc := u8 (Z.lor (u8 LCD_DISPLAYON) LCD_DISPLAYON) in
  let on := nonzero (Z.land dc LCD_BACKLIGHT) in
  let dm := u8 (Z.lor LCD_ENTRYLEFT LCD_ENTRYSHIFTDECREMENT) in
  performs (begin Wire_status fuel cols lines dotsize) l tt
    (begun l lines dotsize)
    ([Delay 50; WireBegin] ++ expander_requests a
     ++ bursts a handshake ++ [Delay 5]
     ++ bursts a (nibble_pairs (lit l) fs false) ++ [Delay 5]
     ++ bursts a (nibble_pairs (lit l) fs false) ++ [Delay 5]
     ++ bursts a (nibble_pairs on (u8 (Z.lor LCD_DISPLAYCONTROL dc)) false)
     ++ bursts a (nibble_pairs on (u8 LCD_CLEARDISPLAY) false)
     ++ [DelayMicroseconds 2000]
     ++ bursts a (nibble_pairs on (u8 (Z.lor LCD_ENTRYMODESET dm)) false)
     ++ burst a (backlight_bit (bitWrite dc 3 HIGH))).
Proof.
  intros a fs dc on dm. subst a fs dc on dm.
  unfold begin, begun, begin_displayfunction.
  destruct (lines >? 1); destruct (nonzero dotsize && (lines =? 1)).
  all: eapply performs_eq;
    [ eapply performs_bind; [apply performs_call; reflexivity|];
      eapply performs_bind; [apply performs_call; reflexivity|];
      eapply performs_bind; [apply performs_begin_expander|];
      eapply performs_bind; [first [apply performs_modify | apply performs_ret]|];
      eapply performs_bind; [apply performs_modify|];
      eapply performs_bind; [apply performs_modify|];
      eapply performs_bind; [first [apply performs_modify | apply performs_ret]|];
      eapply performs_bind; [apply performs_begin_4bitmode|];
      eapply performs_bind; [apply performs_call; reflexivity|];
      eapply performs_bind; [apply performs_command_functionset|];
      eapply performs_bind; [apply performs_call; reflexivity|];
      eapply performs_bind; [apply performs_command_functionset|];
      eapply performs_bind; [apply performs_call; reflexivity|];
      eapply performs_bind; [apply performs_modify|];
      eapply performs_bind; [apply performs_displaycontrol_set|];
      eapply performs_bind; [apply performs_clear|];
      eapply performs_bind; [apply performs_modify|];
      eapply performs_bind; [apply performs_command_entrymode|];
      apply performs_setBacklight
    | reflexivity
    | reflexivity ].
Qed.

End Logic.

(** ** The transports used in the concrete runs *)

Lemma always_ack_responsive : responsive always_ack 1.
Proof. intros t. exists 0%nat. split; [lia | reflexivity]. Defined.

(** ** Byte transmission *)

(** C1: for every byte [v], the four GPIO bytes of [write(v)] are those of
    [command(v)] with the RS bit (bit 1) set in each, the bytes of
    [command(v)] having it clear; in both the data pins carry the high
    nibble of [v] in the first two bytes and the low nibble in the last two,
    each nibble with enable (bit 2) high, then low. *)
Theorem write_is_command_with_RS {h : LiquidTWI_h} Wire_status fuel l v :
  responsive Wire_status fuel ->
  is_u8 v ->
  exists cmd wr : list Z,
    performs (command Wire_status fuel v) l tt l (bursts (_i2cAddr l) cmd) /\
    performs (write Wire_status fuel v) l 1 l (bursts (_i2cAddr l) wr) /\
    wr = map (fun b => Z.setbit b 1) cmd /\
    Forall (fun b => Z.testbit b 1 = false) cmd /\
    map (fun b => Z.land (Z.shiftr b 3) 15) cmd
      = [v / 16; v / 16; v mod 16; v mod 16] /\
    map (fun b => Z.testbit b 2) cmd = [true; false; true; false].
Proof.
  intros Hresp Hv.
  exists (nibble_pairs (lit l) v false), (nibble_pairs (lit l) v true).
  split; [apply (performs_command Wire_status fuel Hresp v l Hv)|].
  split; [apply (performs_write Wire_status fuel Hresp v l Hv)|].
  unfold nibble_pairs. cbn [map].
  destruct (lit l).
  all: split; [list_by_bytes v Hv|].
  all: split; [repeat (apply Forall_cons; [by_bytes v Hv|]); apply Forall_nil|].
  all: split; list_by_bytes v Hv.
Qed.

Lemma write_is_command_with_RS_witness :
  responsive always_ack 1 /\ is_u8 0x41 /\
  exists cmd wr : list Z,
    performs (command (h := datasheet) always_ack 1 0x41) zeroed tt zeroed
      (bursts (h := datasheet) 0 cmd) /\
    performs (write (h := datasheet) always_ack 1 0x41) zeroed 1 zeroed
      (bursts (h := datasheet) 0 wr) /\
    wr = map (fun b => Z.setbit b 1) cmd /\
    Forall (fun b => Z.testbit b 1 = false) cmd /\
    map (fun b => Z.land (Z.shiftr b 3) 15) cmd = [4; 4; 1; 1] /\
    map (fun b => Z.testbit b 2) cmd = [true; false; true; false].
Proof.
  split; [exact always_ack_responsive|].
  split; [unfold is_u8; lia|].
  apply (@write_is_command_with_RS datasheet always_ack 1 zeroed 0x41).
  - exact always_ack_responsive.
  - unfold is_u8; lia.
Defined.

(** ** clear and home *)

(** C8: every call of [clear()], and likewise of [home()], puts its command
    byte on the bus and then calls [delayMicroseconds] with 2000: the wait
    follows the command byte, on every invocation. *)
Theorem clear_home_wait {h : LiquidTWI_h} Wire_status fuel l :
  responsive Wire_status fuel ->
  performs (clear Wire_status fuel) l tt l
    (command_traffic l (u8 LCD_CLEARDISPLAY) ++ [DelayMicroseconds 2000]) /\
  performs (home Wire_status fuel) l tt l
    (command_traffic l (u8 LCD_RETURNHOME) ++ [DelayMicroseconds 2000]).
Proof.
  intros Hresp. split.
  - apply (performs_clear Wire_status fuel Hresp).
  - apply (performs_home Wire_status fuel Hresp).
Qed.

Lemma clear_home_wait_witness :
  responsive always_ack 1 /\
  performs (clear (h := datasheet) always_ack 1) zeroed tt zeroed
    (command_traffic (h := datasheet) zeroed 0x01 ++ [DelayMicroseconds 2000]) /\
  performs (home (h := datasheet) always_ack 1) zeroed tt zeroed
    (command_traffic (h := datasheet) zeroed 0x02 ++ [DelayMicroseconds 2000]).
Proof.
  split; [exact always_ack_responsive|].
  exact (@clear_home_wait datasheet always_ack 1 zeroed always_ack_responsive).
Defined.

(** ** The retry loop of burstBits *)

(** C9: [burstBits] ends in the loop that calls [Wire.endTransmission]
    until it returns zero.  If the transport never reports success from the
    current call on, [burstBits] does not return, whatever the fuel, and
    neither does [send], whose first step it is; if the transport reports
    success [k] calls ahead, [burstBits] returns with any fuel above [k], at
    the first success, having retried after each failure before it. *)
Theorem burstBits_retries {h : LiquidTWI_h} Wire_status value l t :
  ((forall k, Wire_status (t + k)%nat <> 0) ->
   forall fuel,
     burstBits Wire_status fuel value l t = Spins /\
     forall mode, send Wire_status fuel value mode l t = Spins) /\
  (forall k,
     Wire_status (t + k)%nat = 0 ->
     forall fuel, (k < fuel)%nat ->
     exists j,
       (j <= k)%nat /\
       Wire_status (t + j)%nat = 0 /\
       (forall i, (i < j)%nat -> Wire_status (t + i)%nat <> 0) /\
       burstBits Wire_status fuel value l t =
         Returns tt l (t + j + 1)
           (burst (_i2cAddr l) value
            ++ map (fun i => EndTransmission (Wire_status (t + i)%nat))
                 (seq 0 (S j)))).
Proof.
  split.
  - intros Hnever fuel.
    pose proof (while_endTransmission_spins Wire_status l fuel t Hnever) as Hspin.
    split.
    + unfold burstBits, bind. cbn. rewrite Hspin. reflexivity.
    + intros mode. unfold send, burstBits, bind. cbn. rewrite Hspin.
      reflexivity.
  - intros k Hk fuel Hfuel.
    destruct (while_endTransmission_returns Wire_status l k fuel t Hfuel Hk)
      as (j & Hj & Hz & Hnz & Hrun).
    exists j. repeat split; try assumption.
    unfold burstBits, bind. cbn. rewrite Hrun. reflexivity.
Qed.

Lemma burstBits_retries_witness :
  (forall fuel,
     burstBits (h := datasheet) stuck fuel 0x80 zeroed 0%nat = Spins /\
     forall mode, send (h := datasheet) stuck fuel 0x80 mode zeroed 0%nat = Spins) /\
  burstBits (h := datasheet) (nack_first 3) 4 0x80 zeroed 0%nat =
    Returns tt zeroed 4%nat
      [BeginTransmission 0x20; Write 0x09; Write 0x80;
       EndTransmission 2; EndTransmission 2; EndTransmission 2;
       EndTransmission 0].
Proof.
  split.
  - apply (proj1 (@burstBits_retries datasheet stuck 0x80 zeroed 0%nat)).
    intros k. unfold stuck. discriminate.
  - destruct (proj2 (@burstBits_retries datasheet (nack_first 3) 0x80 zeroed 0%nat)
                3%nat eq_refl 4%nat (le_n 4))
      as (j & Hj & Hz & _ & Hrun).
    destruct j as [|[|[|[|j]]]];
      [discriminate Hz | discriminate Hz | discriminate Hz | exact Hrun | lia].
Defined.

(** ** Initialization *)

(** C7: [begin] configures the expander, then writes the eight bursts of
    the 4-bit-mode handshake, in the order and with the bit patterns of the
    source, before any command; then it sends the function-set command
    twice, a delay after each. *)
Theorem begin_handshake_then_functionset
    {h : LiquidTWI_h} Wire_status fuel cols lines dotsize l :
  responsive Wire_status fuel ->
  let a := _i2cAddr l in
  let l' := begun l lines dotsize in
  let functionset :=
    command_traffic l (u8 (Z.lor LCD_FUNCTIONSET (_displayfunction l'))) in
  exists rest,
    performs (begin Wire_status fuel cols lines dotsize) l tt l'
      ([Delay 50; WireBegin] ++ expander_requests a
       ++ bursts a [0x9C; 0x98; 0x9C; 0x98; 0x9C; 0x98; 0x94; 0x90]
       ++ [Delay 5]
       ++ functionset ++ [Delay 5]
       ++ functionset ++ [Delay 5]
       ++ rest).
Proof.
  intros Hresp a l' functionset. eexists.
  apply (performs_begin Wire_status fuel Hresp cols lines dotsize l).
Qed.

Lemma begin_handshake_then_functionset_witness :
  responsive always_ack 1 /\
  exists rest,
    performs (begin (h := datasheet) always_ack 1 16 2 0) zeroed tt
      (begun (h := datasheet) zeroed 2 0)
      ([Delay 50; WireBegin] ++ expander_requests (h := datasheet) 0
       ++ bursts (h := datasheet) 0 [0x9C; 0x98; 0x9C; 0x98; 0x9C; 0x98; 0x94; 0x90]
       ++ [Delay 5]
       ++ command_traffic (h := datasheet) zeroed 0x28 ++ [Delay 5]
       ++ command_traffic (h := datasheet) zeroed 0x28 ++ [Delay 5]
       ++ rest).
Proof.
  split; [exact always_ack_responsive|].
  exact (@begin_handshake_then_functionset datasheet always_ack 1 16 2 0 zeroed
           always_ack_responsive).
Defined.

(** ** The display-function flags *)

Lemma is_u8_bit x n : is_u8 x -> Z.testbit x n = true -> 0 <= n < 8.
Proof.
  intros Hx Hn.
  destruct (Z.ltb_spec n 0) as [Hneg|Hpos].
  - rewrite Z.testbit_neg_r in Hn by exact Hneg. discriminate.
  - split; [exact Hpos|].
    destruct (Z.ltb_spec n 8) as [Hlt|Hge]; [exact Hlt|].
    rewrite <- (u8_small x Hx) in Hn. unfold u8 in Hn.
    change 256 with (2 ^ 8) in Hn.
    rewrite Z.mod_pow2_bits_high in Hn by lia. discriminate.
Qed.

Lemma u8_testbit x n : 0 <= n < 8 -> Z.testbit (u8 x) n = Z.testbit x n.
Proof.
  intros Hn. unfold u8. change 256 with (2 ^ 8).
  apply Z.mod_pow2_bits_low. lia.
Qed.

Lemma u8_lor_keeps x flag n :
  is_u8 x -> Z.testbit x n = true -> Z.testbit (u8 (Z.lor x flag)) n = true.
Proof.
  intros Hx Hn.
  rewrite u8_testbit by exact (is_u8_bit x n Hx Hn).
  rewrite Z.lor_spec, Hn. reflexivity.
Qed.

Lemma u8_lor_has x flag : is_u8 flag -> Z.land (u8 (Z.lor x flag)) flag = flag.
Proof.
  intros Hflag. apply Z.bits_inj'. intros n Hn.
  rewrite Z.land_spec.
  destruct (Z.testbit flag n) eqn:E; [|apply Bool.andb_false_r].
  rewrite u8_testbit by exact (is_u8_bit flag n Hflag E).
  rewrite Z.lor_spec, E, Bool.orb_true_r. reflexivity.
Qed.

Lemma begin_displayfunction_u8 {h : LiquidTWI_h} df lines dotsize :
  is_u8 df -> is_u8 (begin_displayfunction df lines dotsize).
Proof.
  intros Hdf. unfold begin_displayfunction.
  destruct (lines >? 1), (nonzero dotsize && (lines =? 1));
    first [apply u8_range | exact Hdf].
Qed.

Lemma begin_displayfunction_keeps {h : LiquidTWI_h} df lines dotsize n :
  is_u8 df ->
  Z.testbit df n = true ->
  Z.testbit (begin_displayfunction df lines dotsize) n = true.
Proof.
  intros Hdf Hn. unfold begin_displayfunction.
  destruct (lines >? 1), (nonzero dotsize && (lines =? 1)).
  - apply u8_lor_keeps; [apply u8_range|].
    apply u8_lor_keeps; assumption.
  - apply u8_lor_keeps; assumption.
  - apply u8_lor_keeps; assumption.
  - exact Hn.
Qed.

Lemma returns_begin {h : LiquidTWI_h} Wire_status fuel cols lines dotsize l :
  responsive Wire_status fuel ->
  returns (begin Wire_status fuel cols lines dotsize) l tt (begun l lines dotsize).
Proof.
  intros Hresp.
  exact (performs_returns _ _ _ _ _
           (performs_begin Wire_status fuel Hresp cols lines dotsize l)).
Qed.

Lemma begins_keep_displayfunction {h : LiquidTWI_h} Wire_status fuel :
  responsive Wire_status fuel ->
  forall args l,
    is_u8 (_displayfunction l) ->
    exists l',
      returns (sketch Wire_status fuel (begins args)) l tt l' /\
      is_u8 (_displayfunction l') /\
      forall n, Z.testbit (_displayfunction l) n = true ->
                Z.testbit (_displayfunction l') n = true.
Proof.
  intros Hresp args.
  induction args as [|[[cols lines] dotsize] args IH]; intros l Hl.
  - exists l. split; [apply returns_ret|]. split; [exact Hl|]. auto.
  - destruct (IH (begun l lines dotsize)) as (l' & Hrun & Hu8 & Hkeep).
    { apply begin_displayfunction_u8. exact Hl. }
    exists l'. split; [|split; [exact Hu8|]].
    + cbn [begins map sketch invoke].
      eapply returns_bind; [apply returns_begin; exact Hresp | exact Hrun].
    + intros n Hn. apply Hkeep. cbn [begun _displayfunction].
      apply begin_displayfunction_keeps; assumption.
Qed.

(** C10: [begin] only ORs bits into [_displayfunction]: after any run of
    [begin] calls every bit that was set before is still set; so the 2-line
    flag set by [begin(cols,2)] is still set after a later
    [begin(cols,1,0)], which configured one line. *)
Theorem begin_never_clears_displayfunction
    {h : LiquidTWI_h} Wire_status fuel l :
  responsive Wire_status fuel ->
  is_u8 (_displayfunction l) ->
  (forall args, exists l',
     returns (sketch Wire_status fuel (begins args)) l tt l' /\
     forall n, Z.testbit (_displayfunction l) n = true ->
               Z.testbit (_displayfunction l') n = true) /\
  (is_u8 LCD_2LINE ->
   forall cols dotsize cols', exists l',
     returns (sketch Wire_status fuel
                [m_begin cols 2 dotsize; m_begin cols' 1 0]) l tt l' /\
     _numlines l' = 1 /\
     Z.land (_displayfunction l') LCD_2LINE = LCD_2LINE).
Proof.
  intros Hresp Hl. split.
  - intros args.
    destruct (begins_keep_displayfunction Wire_status fuel Hresp args l Hl)
      as (l' & Hrun & _ & Hkeep).
    exists l'. split; assumption.
  - intros H2 cols dotsize cols'.
    exists (begun (begun l 2 dotsize) 1 0). split; [|split].
    + cbn [sketch invoke].
      eapply returns_bind; [apply returns_begin; exact Hresp|].
      eapply returns_bind; [apply returns_begin; exact Hresp|].
      apply returns_ret.
    + reflexivity.
    + cbn [begun _displayfunction]. unfold begin_displayfunction.
      change (2 >? 1) with true. change (2 =? 1) with false.
      change (1 >? 1) with false. change (nonzero 0) with false.
      rewrite Bool.andb_false_r. cbn [andb].
      apply u8_lor_has. exact H2.
Qed.

Lemma begin_never_clears_displayfunction_witness :
  responsive always_ack 1 /\
  is_u8 (_displayfunction (LiquidTWI_ (h := datasheet) zeroed 0)) /\
  (forall args, exists l',
     returns (sketch (h := datasheet) always_ack 1 (begins args))
       (LiquidTWI_ (h := datasheet) zeroed 0) tt l' /\
     forall n,
       Z.testbit (_displayfunction (LiquidTWI_ (h := datasheet) zeroed 0)) n = true ->
       Z.testbit (_displayfunction l') n = true) /\
  (is_u8 0x08 ->
   forall cols dotsize cols', exists l',
     returns (sketch (h := datasheet) always_ack 1
                [m_begin cols 2 dotsize; m_begin cols' 1 0])
       (LiquidTWI_ (h := datasheet) zeroed 0) tt l' /\
     _numlines l' = 1 /\
     Z.land (_displayfunction l') 0x08 = 0x08).
Proof.
  split; [exact always_ack_responsive|].
  split; [unfold is_u8; cbn; lia|].
  apply (@begin_never_clears_displayfunction datasheet always_ack 1
           (LiquidTWI_ (h := datasheet) zeroed 0)).
  - exact always_ack_responsive.
  - unfold is_u8; cbn; lia.
Defined.

(** ** The bus address *)

Lemma keeps_ret {A} (a : A) : keeps_i2cAddr (ret a).
Proof. intros l t a' l' t' calls E. inversion E. reflexivity. Qed.

Lemma keeps_bind {A B} (m : M A) (f : A -> M B) :
  keeps_i2cAddr m -> (forall a, keeps_i2cAddr (f a)) -> keeps_i2cAddr (bind m f).
Proof.
  intros Hm Hf l t b l2 t2 calls E. unfold bind in E.
  destruct (m l t) as [a l1 t1 c1| |] eqn:E1; try discriminate.
  destruct (f a l1 t1) as [b' l2' t2' c2| |] eqn:E2; try discriminate.
  inversion E; subst.
  rewrite (Hf a _ _ _ _ _ _ E2). exact (Hm _ _ _ _ _ _ E1).
Qed.

Lemma keeps_gets {A} (f : LiquidTWI -> A) : keeps_i2cAddr (gets f).
Proof. intros l t a l' t' calls E. inversion E. reflexivity. Qed.

Lemma keeps_modify f :
  (forall l, _i2cAddr (f l) = _i2cAddr l) -> keeps_i2cAddr (modify f).
Proof. intros Hf l t a l' t' calls E. inversion E. apply Hf. Qed.

Lemma keeps_call e : keeps_i2cAddr (call e).
Proof. intros l t a l' t' calls E. inversion E. reflexivity. Qed.

Lemma keeps_spin {A} : keeps_i2cAddr (@spin A).
Proof. intros l t a l' t' calls E. discriminate E. Qed.

Lemma keeps_index a i : keeps_i2cAddr (index a i).
Proof.
  unfold index. destruct (i <? 0); [intros l t x l' t' calls E; discriminate E|].
  destruct (nth_error a (Z.to_nat i)); [apply keeps_ret|].
  intros l t x l' t' calls E. discriminate E.
Qed.

Lemma keeps_for_ ixs body :
  (forall i, keeps_i2cAddr (body i)) -> keeps_i2cAddr (for_ ixs body).
Proof.
  intros Hbody. induction ixs as [|i ixs IH]; [apply keeps_ret|].
  apply keeps_bind; [apply Hbody | intros _; exact IH].
Qed.

Lemma keeps_endTransmission Wire_status :
  keeps_i2cAddr (Wire_endTransmission Wire_status).
Proof. intros l t a l' t' calls E. inversion E. reflexivity. Qed.

Lemma keeps_while_endTransmission Wire_status n :
  keeps_i2cAddr (while_endTransmission Wire_status n).
Proof.
  induction n as [|n IH]; [apply keeps_spin|].
  apply keeps_bind; [apply keeps_endTransmission|].
  intros status. destruct (nonzero status); [exact IH | apply keeps_ret].
Qed.

Create HintDb keeps discriminated.
#[local] Hint Resolve keeps_ret keeps_gets keeps_call keeps_spin keeps_index
  keeps_endTransmission keeps_while_endTransmission : keeps.

(** Takes a member function apart down to the primitives. *)
Ltac keeps :=
  repeat first
    [ solve [auto with keeps]
    | apply keeps_modify; intros ?; reflexivity
    | apply keeps_for_; intros ?
    | apply keeps_bind; [|intros ?]
    | match goal with
      | |- keeps_i2cAddr (if ?b then _ else _) => destruct b
      end ].

Lemma keeps_burstBits {h : LiquidTWI_h} Wire_status fuel value :
  keeps_i2cAddr (burstBits Wire_status fuel value).
Proof. unfold burstBits, Wire_beginTransmission, Wire_write. keeps. Qed.

#[local] Hint Resolve keeps_burstBits : keeps.

Lemma keeps_send {h : LiquidTWI_h} Wire_status fuel value mode :
  keeps_i2cAddr (send Wire_status fuel value mode).
Proof. unfold send. keeps. Qed.

#[local] Hint Resolve keeps_send : keeps.

Lemma keeps_invoke {h : LiquidTWI_h} Wire_status fuel m :
  keeps_i2cAddr (invoke Wire_status fuel m).
Proof.
  destruct m; cbn [invoke];
    unfold begin, begin_expander, begin_4bitmode, clear, home, setCursor,
      noDisplay, display, noCursor, cursor, noBlink, blink,
      scrollDisplayLeft, scrollDisplayRight, leftToRight, rightToLeft,
      autoscroll, noAutoscroll, createChar, setBacklight,
      command_displaycontrol, command_entrymode, command_functionset,
      displaycontrol_set, displaycontrol_clear, displaymode_set,
      displaymode_clear, displayfunction_set, write, command,
      delay, delayMicroseconds, Wire_begin, Wire_beginTransmission, Wire_write;
    keeps.
Qed.

Lemma keeps_sketch {h : LiquidTWI_h} Wire_status fuel ms :
  keeps_i2cAddr (sketch Wire_status fuel ms).
Proof.
  induction ms as [|m ms IH]; [apply keeps_ret|].
  apply keeps_bind; [apply keeps_invoke | intros _; exact IH].
Qed.

(** C5: the constructor stores 7 for an argument above 7 and the argument
    itself otherwise, and no member function assigns [_i2cAddr]: after any
    sketch the address is the constructor's, and lies in [0,7]. *)
Theorem i2cAddr_clamped {h : LiquidTWI_h} Wire_status fuel storage a :
  is_u8 a ->
  let l0 := LiquidTWI_ storage a in
  (7 < a -> _i2cAddr l0 = 7) /\
  (a <= 7 -> _i2cAddr l0 = a) /\
  forall ms t l t' calls,
    sketch Wire_status fuel ms l0 t = Returns tt l t' calls ->
    _i2cAddr l = _i2cAddr l0 /\ 0 <= _i2cAddr l <= 7.
Proof.
  intros Ha l0.
  assert (H0 : _i2cAddr l0 = if a >? 7 then 7 else a) by reflexivity.
  split; [|split].
  - intros Hgt. rewrite H0. rewrite (proj2 (Z.gtb_gt _ _)) by lia. reflexivity.
  - intros Hle. rewrite H0. destruct (Z.gtb_spec a 7); [lia | reflexivity].
  - intros ms t l t' calls Hrun.
    assert (E : _i2cAddr l = _i2cAddr l0)
      by exact (keeps_sketch Wire_status fuel ms _ _ _ _ _ _ Hrun).
    split; [exact E|]. rewrite E, H0.
    unfold is_u8 in Ha. destruct (Z.gtb_spec a 7); lia.
Qed.

Lemma i2cAddr_clamped_witness :
  is_u8 200 /\
  _i2cAddr (LiquidTWI_ (h := datasheet) zeroed 200) = 7 /\
  exists l t' calls,
    sketch (h := datasheet) always_ack 1
      [m_begin 16 2 0; m_setCursor 0 1; m_write 0x41]
      (LiquidTWI_ (h := datasheet) zeroed 200) 0%nat = Returns tt l t' calls /\
    _i2cAddr l = 7 /\ 0 <= _i2cAddr l <= 7.
Proof.
  assert (Ha : is_u8 200) by (unfold is_u8; lia).
  destruct (@i2cAddr_clamped datasheet always_ack 1%nat zeroed 200 Ha)
    as (Hgt & _ & Hkeep).
  split; [exact Ha|].
  split; [apply Hgt; lia|].
  destruct (sketch (h := datasheet) always_ack 1
              [m_begin 16 2 0; m_setCursor 0 1; m_write 0x41]
              (LiquidTWI_ (h := datasheet) zeroed 200) 0%nat)
    as [[] l t' calls| |] eqn:E.
  - exists l, t', calls. split; [reflexivity|].
    destruct (Hkeep _ _ _ _ _ E) as [Hsame Hrange].
    split; [rewrite Hsame; apply Hgt; lia | exact Hrange].
  - vm_compute in E. discriminate E.
  - vm_compute in E. discriminate E.
Defined.

(** ** The backlight *)

Lemma land_8 x : Z.land x 8 = if Z.testbit x 3 then 8 else 0.
Proof.
  apply Z.bits_inj'. intros n Hn.
  rewrite Z.land_spec. change 8 with (2 ^ 3) at 1.
  rewrite Z.pow2_bits_eqb by lia.
  destruct (Z.eqb_spec 3 n) as [<-|Hne].
  - rewrite Bool.andb_true_r. destruct (Z.testbit x 3); reflexivity.
  - rewrite Bool.andb_false_r. destruct (Z.testbit x 3).
    + change 8 with (2 ^ 3). rewrite Z.pow2_bits_eqb by lia.
      symmetry. apply Z.eqb_neq. exact Hne.
    + symmetry. apply Z.bits_0.
Qed.

Lemma nonzero_land_8 x : nonzero (Z.land x 8) = Z.testbit x 3.
Proof. rewrite land_8. destruct (Z.testbit x 3); reflexivity. Qed.

Lemma bitWrite_3 x status : Z.testbit (bitWrite x 3 status) 3 = nonzero status.
Proof.
  unfold bitWrite. destruct (nonzero status).
  - rewrite u8_testbit by lia. rewrite Z.lor_spec.
    change (Z.testbit (Z.shiftl 1 3) 3) with true. apply Bool.orb_true_r.
  - rewrite u8_testbit by lia. rewrite Z.land_spec.
    change (Z.testbit (Z.lnot (Z.shiftl 1 3)) 3) with false.
    apply Bool.andb_false_r.
Qed.

Lemma nibble_pairs_bit7 lite v rs :
  is_u8 v -> Forall (fun b => Z.testbit b 7 = lite) (nibble_pairs lite v rs).
Proof.
  intros Hv. unfold nibble_pairs.
  destruct lite, rs;
    repeat (apply Forall_cons; [by_bytes v Hv|]); apply Forall_nil.
Qed.

Lemma gpio_values_bursts {h : LiquidTWI_h} a vs rs :
  gpio_values (bursts a vs ++ rs) = vs ++ gpio_values rs.
Proof.
  induction vs as [|v vs IH]; [reflexivity|].
  cbn. rewrite Z.eqb_refl. f_equal. exact IH.
Qed.

Lemma carries_app {h : LiquidTWI_h} b r1 r2 :
  carries b r1 -> carries b r2 -> carries b (r1 ++ r2).
Proof.
  intros H1 H2. induction H1 as [|a v rs Hv _ IH|us rs _ IH].
  - exact H2.
  - rewrite <- app_assoc. apply carries_burst; assumption.
  - cbn [app]. apply carries_wait. exact IH.
Qed.

Section Backlight.

Context {h : LiquidTWI_h}.
Variable Wire_status : nat -> Z.
Variable fuel : nat.
Hypothesis Wire_responsive : responsive Wire_status fuel.
Hypothesis header : backlight_is_bit3.

Lemma lit_bit3 l : lit l = Z.testbit (_displaycontrol l) 3.
Proof.
  unfold lit. destruct header as (-> & _). apply nonzero_land_8.
Qed.

Lemma lit_displaycontrol_set flag l :
  Z.testbit flag 3 = false ->
  lit (set_displaycontrol (u8 (Z.lor (_displaycontrol l) flag)) l) = lit l.
Proof.
  intros Hflag. rewrite !lit_bit3. cbn [set_displaycontrol _displaycontrol].
  rewrite u8_testbit by lia. rewrite Z.lor_spec, Hflag.
  apply Bool.orb_false_r.
Qed.

Lemma lit_displaycontrol_clear flag l :
  Z.testbit flag 3 = false ->
  lit (set_displaycontrol (u8 (Z.land (_displaycontrol l) (Z.lnot flag))) l)
  = lit l.
Proof.
  intros Hflag. rewrite !lit_bit3. cbn [set_displaycontrol _displaycontrol].
  rewrite u8_testbit by lia. rewrite Z.land_spec, Z.lnot_spec by lia.
  rewrite Hflag. apply Bool.andb_true_r.
Qed.

Ltac traffic run same_lit :=
  split; [rewrite ?app_nil_r; run|];
  split; [apply u8_range|];
  split; [reflexivity|];
  split; [intros ?; reflexivity|];
  split; [reflexivity | same_lit].

(** What a control puts on the bus: one command, and for [clear] and
    [home] the wait after it; the backlight flag stays as it is. *)
Lemma control_traffic m l :
  control m = true ->
  exists l' value tail,
    performs (invoke Wire_status fuel m) l tt l'
      (command_traffic l' value ++ tail) /\
    is_u8 value /\
    gpio_values tail = [] /\
    (forall rs, gpio_values (tail ++ rs) = gpio_values rs) /\
    _i2cAddr l' = _i2cAddr l /\
    lit l' = lit l.
Proof.
  destruct header as (_ & Hdisplay & Hcursor & Hblink).
  pose proof (performs_clear Wire_status fuel Wire_responsive) as Hclear.
  pose proof (performs_home Wire_status fuel Wire_responsive) as Hhome.
  pose proof (performs_displaycontrol_set Wire_status fuel Wire_responsive)
    as Hset.
  pose proof (performs_displaycontrol_clear Wire_status fuel Wire_responsive)
    as Hclr.
  pose proof (performs_displaymode_set Wire_status fuel Wire_responsive)
    as Hmset.
  pose proof (performs_displaymode_clear Wire_status fuel Wire_responsive)
    as Hmclr.
  pose proof (performs_command Wire_status fuel Wire_responsive) as Hcmd.
  destruct m; try discriminate; intros _; cbn [invoke].
  - exists l, (u8 LCD_CLEARDISPLAY), [DelayMicroseconds 2000].
    traffic ltac:(apply Hclear) ltac:(reflexivity).
  - exists l, (u8 LCD_RETURNHOME), [DelayMicroseconds 2000].
    traffic ltac:(apply Hhome) ltac:(reflexivity).
  - exists (set_displaycontrol (displaycontrol_without l LCD_DISPLAYON) l),
      (u8 (Z.lor LCD_DISPLAYCONTROL (displaycontrol_without l LCD_DISPLAYON))), [].
    traffic ltac:(exact (Hclr LCD_DISPLAYON l))
            ltac:(apply lit_displaycontrol_clear; exact Hdisplay).
  - exists (set_displaycontrol (displaycontrol_with l LCD_DISPLAYON) l),
      (u8 (Z.lor LCD_DISPLAYCONTROL (displaycontrol_with l LCD_DISPLAYON))), [].
    traffic ltac:(exact (Hset LCD_DISPLAYON l))
            ltac:(apply lit_displaycontrol_set; exact Hdisplay).
  - exists (set_displaycontrol (displaycontrol_without l LCD_CURSORON) l),
      (u8 (Z.lor LCD_DISPLAYCONTROL (displaycontrol_without l LCD_CURSORON))), [].
    traffic ltac:(exact (Hclr LCD_CURSORON l))
            ltac:(apply lit_displaycontrol_clear; exact Hcursor).
  - exists (set_displaycontrol (displaycontrol_with l LCD_CURSORON) l),
      (u8 (Z.lor LCD_DISPLAYCONTROL (displaycontrol_with l LCD_CURSORON))), [].
    traffic ltac:(exact (Hset LCD_CURSORON l))
            ltac:(apply lit_displaycontrol_set; exact Hcursor).
  - exists (set_displaycontrol (displaycontrol_without l LCD_BLINKON) l),
      (u8 (Z.lor LCD_DISPLAYCONTROL (displaycontrol_without l LCD_BLINKON))), [].
    traffic ltac:(exact (Hclr LCD_BLINKON l))
            ltac:(apply lit_displaycontrol_clear; exact Hblink).
  - exists (set_displaycontrol (displaycontrol_with l LCD_BLINKON) l),
      (u8 (Z.lor LCD_DISPLAYCONTROL (displaycontrol_with l LCD_BLINKON))), [].
    traffic ltac:(exact (Hset LCD_BLINKON l))
            ltac:(apply lit_displaycontrol_set; exact Hblink).
  - eexists l, _, [].
    traffic ltac:(apply Hcmd; apply u8_range) ltac:(reflexivity).
  - eexists l, _, [].
    traffic ltac:(apply Hcmd; apply u8_range) ltac:(reflexivity).
  - exists (set_displaymode (displaymode_with l LCD_ENTRYLEFT) l),
      (u8 (Z.lor LCD_ENTRYMODESET (displaymode_with l LCD_ENTRYLEFT))), [].
    traffic ltac:(exact (Hmset LCD_ENTRYLEFT l)) ltac:(reflexivity).
  - exists (set_displaymode (displaymode_without l LCD_ENTRYLEFT) l),
      (u8 (Z.lor LCD_ENTRYMODESET (displaymode_without l LCD_ENTRYLEFT))), [].
    traffic ltac:(exact (Hmclr LCD_ENTRYLEFT l)) ltac:(reflexivity).
  - exists (set_displaymode (displaymode_with l LCD_ENTRYSHIFTINCREMENT) l),
      (u8 (Z.lor LCD_ENTRYMODESET (displaymode_with l LCD_ENTRYSHIFTINCREMENT))), [].
    traffic ltac:(exact (Hmset LCD_ENTRYSHIFTINCREMENT l)) ltac:(reflexivity).
  - exists (set_displaymode (displaymode_without l LCD_ENTRYSHIFTINCREMENT) l),
      (u8 (Z.lor LCD_ENTRYMODESET (displaymode_without l LCD_ENTRYSHIFTINCREMENT))), [].
    traffic ltac:(exact (Hmclr LCD_ENTRYSHIFTINCREMENT l)) ltac:(reflexivity).
Qed.

Lemma controls_keep_backlight ms :
  forallb control ms = true ->
  forall l, exists l' rs,
    performs (sketch Wire_status fuel ms) l tt l' rs /\
    lit l' = lit l /\
    Forall (fun v => Z.testbit v 7 = lit l) (gpio_values rs).
Proof.
  induction ms as [|m ms IH]; intros Hms l.
  - exists l, []. split; [apply performs_ret|]. split; [reflexivity|].
    apply Forall_nil.
  - cbn [forallb] in Hms. apply Bool.andb_true_iff in Hms as [Hm Hms].
    destruct (control_traffic m l Hm)
      as (l1 & value & tail & Hrun & Hvalue & _ & Htail & _ & Hlit).
    destruct (IH Hms l1) as (l2 & rs & Hrest & Hlit2 & Hbits).
    exists l2, ((command_traffic l1 value ++ tail) ++ rs).
    split; [|split].
    + cbn [sketch]. eapply performs_bind; [exact Hrun | exact Hrest].
    + rewrite Hlit2. exact Hlit.
    + unfold command_traffic. rewrite <- app_assoc, gpio_values_bursts, Htail.
      apply Forall_app. split.
      * rewrite <- Hlit. apply nibble_pairs_bit7. exact Hvalue.
      * rewrite <- Hlit. exact Hbits.
Qed.

(** *** Every run that returns *)

Lemma post_weaken {A} (m : M A) l (Q Q' : A -> LiquidTWI -> list event -> Prop) :
  post m l Q -> (forall a l' rs, Q a l' rs -> Q' a l' rs) -> post m l Q'.
Proof. intros Hm HQ t a l' t' calls E. apply HQ. exact (Hm _ _ _ _ _ E). Qed.

Lemma post_ret {A} (a : A) l :
  post (ret a) l (fun a' l' rs => a' = a /\ l' = l /\ rs = []).
Proof. intros t a' l' t' calls E. inversion E; subst. auto. Qed.

Lemma post_gets {A} (f : LiquidTWI -> A) l :
  post (gets f) l (fun a l' rs => a = f l /\ l' = l /\ rs = []).
Proof. intros t a' l' t' calls E. inversion E; subst. auto. Qed.

Lemma post_modify f l :
  post (modify f) l (fun _ l' rs => l' = f l /\ rs = []).
Proof. intros t a' l' t' calls E. inversion E; subst. auto. Qed.

Lemma post_call e l :
  post (call e) l (fun _ l' rs => l' = l /\ rs = requests [e]).
Proof. intros t a' l' t' calls E. inversion E; subst. auto. Qed.

Lemma post_bind {A B} (m : M A) (f : A -> M B) l Q1 Q :
  post m l Q1 ->
  (forall a l1 r1,
     Q1 a l1 r1 -> post (f a) l1 (fun b l2 r2 => Q b l2 (r1 ++ r2))) ->
  post (bind m f) l Q.
Proof.
  intros Hm Hf t b l2 t2 calls E. unfold bind in E.
  destruct (m l t) as [a l1 t1 c1| |] eqn:E1; try discriminate.
  destruct (f a l1 t1) as [b' l2' t2' c2| |] eqn:E2; try discriminate.
  inversion E; subst. rewrite requests_app.
  exact (Hf a l1 (requests c1) (Hm _ _ _ _ _ E1) _ _ _ _ _ E2).
Qed.

Lemma post_while_endTransmission n l :
  post (while_endTransmission Wire_status n) l
    (fun _ l' rs => l' = l /\ rs = []).
Proof.
  induction n as [|n IH]; intros t a l' t' calls E; [discriminate E|].
  cbn [while_endTransmission] in E. unfold bind, Wire_endTransmission in E.
  destruct (nonzero (Wire_status t)).
  - destruct (while_endTransmission Wire_status n l (S t))
      as [a1 l1 t1 c1| |] eqn:E1; try discriminate.
    inversion E; subst. exact (IH _ _ _ _ _ E1).
  - inversion E; subst. auto.
Qed.

Lemma post_burstBits value l :
  post (burstBits Wire_status fuel value) l
    (fun _ l' rs => l' = l /\ rs = burst (_i2cAddr l) value).
Proof.
  unfold burstBits.
  eapply post_bind; [apply post_gets|].
  intros addr l1 r1 (-> & -> & ->).
  eapply post_bind; [apply post_call|]. intros [] l1 r1 (-> & ->).
  eapply post_bind; [apply post_call|]. intros [] l1 r2 (-> & ->).
  eapply post_bind; [apply post_call|]. intros [] l1 r3 (-> & ->).
  eapply post_weaken; [apply post_while_endTransmission|].
  intros [] l' rs (-> & ->). split; reflexivity.
Qed.

Lemma land_u8 v m : is_u8 m -> Z.land v m = Z.land (u8 v) m.
Proof.
  intros Hm. apply Z.bits_inj'. intros n Hn. rewrite !Z.land_spec.
  destruct (Z.testbit m n) eqn:E; [|rewrite !Bool.andb_false_r; reflexivity].
  rewrite u8_testbit by exact (is_u8_bit m n Hm E). reflexivity.
Qed.

Lemma keeps_backlight_send value mode :
  keeps_backlight (send Wire_status fuel value mode).
Proof.
  intros l. unfold send.
  assert (HF0 : is_u8 B11110000) by (unfold is_u8, B11110000; lia).
  assert (H0F : is_u8 B1111) by (unfold is_u8, B1111; lia).
  rewrite (land_u8 value _ HF0), (land_u8 value _ H0F).
  pose proof (u8_range value) as Hv. generalize dependent (u8 value).
  intros v Hv.
  eapply post_bind; [apply post_gets|]. intros dc l1 r1 (-> & -> & ->).
  eapply post_bind; [apply post_burstBits|]. intros [] l1 r1 (-> & ->).
  eapply post_bind; [apply post_burstBits|]. intros [] l1 r2 (-> & ->).
  eapply post_bind; [apply post_gets|]. intros dc l1 r3 (-> & -> & ->).
  eapply post_bind; [apply post_burstBits|]. intros [] l1 r4 (-> & ->).
  eapply post_weaken; [apply post_burstBits|]. intros [] l1 r5 (-> & ->).
  split; [reflexivity|]. cbn [app].
  unfold backlight_bit. fold (lit l).
  change (nonzero (Z.land (_displaycontrol l) LCD_BACKLIGHT)) with (lit l).
  destruct (nonzero mode), (lit l);
    repeat (apply carries_burst; [by_bytes v Hv|]); apply carries_nil.
Qed.

Lemma keeps_backlight_ret {A} (a : A) : keeps_backlight (ret a).
Proof.
  intros l. eapply post_weaken; [apply post_ret|].
  intros a' l' rs (_ & -> & ->). split; [reflexivity | apply carries_nil].
Qed.

Lemma keeps_backlight_bind {A B} (m : M A) (f : A -> M B) :
  keeps_backlight m -> (forall a, keeps_backlight (f a)) ->
  keeps_backlight (bind m f).
Proof.
  intros Hm Hf l. eapply post_bind; [apply Hm|].
  intros a l1 r1 [Hlit Hr1]. eapply post_weaken; [apply Hf|].
  intros b l2 r2 [Hlit2 Hr2]. split; [congruence|].
  apply carries_app; [exact Hr1 | rewrite <- Hlit; exact Hr2].
Qed.

Lemma keeps_backlight_gets {A} (f : LiquidTWI -> A) : keeps_backlight (gets f).
Proof.
  intros l. eapply post_weaken; [apply post_gets|].
  intros a' l' rs (_ & -> & ->). split; [reflexivity | apply carries_nil].
Qed.

Lemma keeps_backlight_modify f :
  (forall l, lit (f l) = lit l) -> keeps_backlight (modify f).
Proof.
  intros Hf l. eapply post_weaken; [apply post_modify|].
  intros a' l' rs (-> & ->). split; [apply Hf | apply carries_nil].
Qed.

Lemma keeps_backlight_delayMicroseconds us :
  keeps_backlight (delayMicroseconds us).
Proof.
  intros l. eapply post_weaken; [apply post_call|].
  intros a' l' rs (-> & ->). split; [reflexivity|].
  apply carries_wait, carries_nil.
Qed.

Lemma keeps_backlight_index a i : keeps_backlight (index a i).
Proof.
  unfold index. destruct (i <? 0); [intros l t x l' t' calls E; discriminate E|].
  destruct (nth_error a (Z.to_nat i)); [apply keeps_backlight_ret|].
  intros l t x l' t' calls E. discriminate E.
Qed.

Lemma keeps_backlight_for_ ixs body :
  (forall i, keeps_backlight (body i)) -> keeps_backlight (for_ ixs body).
Proof.
  intros Hbody. induction ixs as [|i ixs IH]; [apply keeps_backlight_ret|].
  apply keeps_backlight_bind; [apply Hbody | intros _; exact IH].
Qed.

(** Every member function but [begin] and [setBacklight]. *)
Lemma keeps_backlight_invoke m :
  assigns_backlight m = false -> keeps_backlight (invoke Wire_status fuel m).
Proof.
  destruct header as (_ & Hdisplay & Hcursor & Hblink).
  pose proof keeps_backlight_send as Hsend.
  destruct m; try discriminate; intros _; cbn [invoke];
    unfold clear, home, setCursor,
      noDisplay, display, noCursor, cursor, noBlink, blink,
      scrollDisplayLeft, scrollDisplayRight, leftToRight, rightToLeft,
      autoscroll, noAutoscroll, createChar,
      command_displaycontrol, command_entrymode,
      displaycontrol_set, displaycontrol_clear, displaymode_set,
      displaymode_clear, write, command;
    repeat first
      [ apply Hsend
      | apply keeps_backlight_ret
      | apply keeps_backlight_gets
      | apply keeps_backlight_index
      | apply keeps_backlight_delayMicroseconds
      | apply keeps_backlight_for_; intros ?
      | apply keeps_backlight_bind; [|intros ?] ].
  all: apply keeps_backlight_modify; intros l0.
  all: first
    [ reflexivity
    | apply lit_displaycontrol_clear; assumption
    | apply lit_displaycontrol_set; assumption ].
Qed.

Lemma keeps_backlight_sketch ms :
  existsb assigns_backlight ms = false ->
  keeps_backlight (sketch Wire_status fuel ms).
Proof.
  induction ms as [|m ms IH]; intros Hms;
    [apply keeps_backlight_ret|].
  cbn [existsb] in Hms. apply Bool.orb_false_iff in Hms as [Hm Hms].
  apply keeps_backlight_bind;
    [apply keeps_backlight_invoke; exact Hm | intros _; exact (IH Hms)].
Qed.

Lemma carries_gpio_values b rs :
  carries b rs -> Forall (fun v => Z.testbit v 7 = b) (gpio_values rs).
Proof.
  induction 1 as [|a v rs Hv _ IH|us rs _ IH].
  - apply Forall_nil.
  - cbn. rewrite Z.eqb_refl. apply Forall_cons; assumption.
  - exact IH.
Qed.

End Backlight.

Lemma datasheet_backlight : backlight_is_bit3 (h := datasheet).
Proof. repeat split. Defined.

(** C6: [setBacklight(status)] makes one write to the GPIO register, of
    0x80 when [status] is on and of 0x00 when it is off, and stores the
    flag; every GPIO byte of the [display()], [cursor()] and other controls
    called afterwards carries that flag in its backlight bit (bit 7): the
    controls without arguments always return and show it, and so does every
    run that returns of any member functions other than [begin] and
    [setBacklight], which assign the flag. *)
Theorem backlight_persists {h : LiquidTWI_h} Wire_status fuel l status :
  responsive Wire_status fuel ->
  backlight_is_bit3 ->
  let l1 := set_displaycontrol (bitWrite (_displaycontrol l) 3 status) l in
  performs (setBacklight Wire_status fuel status) l tt l1
    (burst (_i2cAddr l) (if nonzero status then 0x80 else 0x00)) /\
  lit l1 = nonzero status /\
  (forall ms,
     forallb control ms = true ->
     exists l2 rs,
       performs (sketch Wire_status fuel ms) l1 tt l2 rs /\
       lit l2 = nonzero status /\
       Forall (fun v => Z.testbit v 7 = nonzero status) (gpio_values rs)) /\
  (forall ms t l2 t' calls,
     existsb assigns_backlight ms = false ->
     sketch Wire_status fuel ms l1 t = Returns tt l2 t' calls ->
     lit l2 = nonzero status /\
     Forall (fun v => Z.testbit v 7 = nonzero status)
       (gpio_values (requests calls))).
Proof.
  intros Hresp Hheader l1.
  assert (Hlit : lit l1 = nonzero status).
  { rewrite (lit_bit3 Hheader). apply bitWrite_3. }
  split; [|split; [exact Hlit|split]].
  - eapply performs_eq.
    + apply (performs_setBacklight Wire_status fuel Hresp status l).
    + reflexivity.
    + fold l1. unfold backlight_bit. fold (lit l1). rewrite Hlit. reflexivity.
  - intros ms Hms.
    destruct (controls_keep_backlight Wire_status fuel Hresp Hheader ms Hms l1)
      as (l2 & rs & Hrun & Hlit2 & Hbits).
    exists l2, rs. rewrite <- Hlit.
    split; [exact Hrun|]. split; [exact Hlit2 | exact Hbits].
  - intros ms t l2 t' calls Hms Hrun.
    destruct (keeps_backlight_sketch Wire_status fuel Hheader ms Hms l1
                _ _ _ _ _ Hrun) as [Hlit2 Hcarries].
    rewrite <- Hlit. split; [exact Hlit2|].
    apply carries_gpio_values. exact Hcarries.
Qed.

Lemma backlight_persists_witness :
  responsive always_ack 1 /\
  backlight_is_bit3 (h := datasheet) /\
  (exists l2 rs,
     performs
       (sketch (h := datasheet) always_ack 1 [m_display; m_cursor; m_clear])
       (set_displaycontrol (bitWrite 0 3 HIGH) zeroed) tt l2 rs /\
     lit (h := datasheet) l2 = true /\
     Forall (fun v => Z.testbit v 7 = true) (gpio_values (h := datasheet) rs)) /\
  (exists l2 t' calls,
     sketch (h := datasheet) always_ack 1 [m_setCursor 3 0; m_write 0x41]
       (set_displaycontrol (bitWrite 0 3 HIGH) zeroed) 0%nat
     = Returns tt l2 t' calls /\
     lit (h := datasheet) l2 = true /\
     Forall (fun v => Z.testbit v 7 = true)
       (gpio_values (h := datasheet) (requests calls))).
Proof.
  split; [exact always_ack_responsive|].
  split; [exact datasheet_backlight|].
  destruct (@backlight_persists datasheet always_ack 1 zeroed HIGH
              always_ack_responsive datasheet_backlight)
    as (_ & _ & Hcontrols & Hany).
  split; [exact (Hcontrols [m_display; m_cursor; m_clear] eq_refl)|].
  destruct (sketch (h := datasheet) always_ack 1 [m_setCursor 3 0; m_write 0x41]
              (set_displaycontrol (bitWrite 0 3 HIGH) zeroed) 0%nat)
    as [[] l2 t' calls| |] eqn:E.
  - exists l2, t', calls. split; [reflexivity|].
    exact (Hany [m_setCursor 3 0; m_write 0x41] 0%nat l2 t' calls eq_refl E).
  - vm_compute in E. discriminate E.
  - vm_compute in E. discriminate E.
Defined.

(** ** The cursor *)

Lemma lor_0x80 x : 0 <= x < 128 -> u8 (Z.lor 0x80 x) = 0x80 + x.
Proof.
  intros Hx.
  assert (Hb : is_u8 x) by (unfold is_u8; lia).
  assert (E : (if x <? 128 then u8 (Z.lor 0x80 x) =? 0x80 + x else true) = true)
    by by_bytes_bool x Hb.
  rewrite (proj2 (Z.ltb_lt _ _)) in E by lia. apply Z.eqb_eq. exact E.
Qed.

Lemma performs_setCursor_begun
    {h : LiquidTWI_h} Wire_status fuel l dotsize col row offset :
  responsive Wire_status fuel ->
  0 <= row <= 2 ->
  nth_error row_offsets (Z.to_nat row) = Some offset ->
  let l' := begun l 2 dotsize in
  performs (setCursor Wire_status fuel col row) l' tt l'
    (set_DDRAM_address l' (col + offset)).
Proof.
  intros Hresp Hrow Hnth l'.
  assert (E : setCursor_row (_numlines l') row = row).
  { unfold setCursor_row. cbn [l' begun _numlines].
    destruct (Z.gtb_spec row 2); [lia | reflexivity]. }
  apply (performs_setCursor Wire_status fuel Hresp col row l' offset);
    rewrite E; [exact Hnth | lia].
Qed.

(** C2: after [begin] with 16 columns and 2 lines, [setCursor(col,0)]
    issues the set-DDRAM-address command with address [col] and
    [setCursor(col,1)] issues it with address [0x40 + col], for every column
    [col] of the display; with the HD44780's code 0x80 for the command, the
    command byte is 0x80 plus that address. *)
Theorem setCursor_16x2 {h : LiquidTWI_h} Wire_status fuel l dotsize col :
  responsive Wire_status fuel ->
  0 <= col < 16 ->
  let l' := begun l 2 dotsize in
  returns (begin Wire_status fuel 16 2 dotsize) l tt l' /\
  performs (setCursor Wire_status fuel col 0) l' tt l'
    (set_DDRAM_address l' col) /\
  performs (setCursor Wire_status fuel col 1) l' tt l'
    (set_DDRAM_address l' (0x40 + col)) /\
  (LCD_SETDDRAMADDR = 0x80 ->
   set_DDRAM_address l' col = command_traffic l' (0x80 + col) /\
   set_DDRAM_address l' (0x40 + col) = command_traffic l' (0x80 + (0x40 + col))).
Proof.
  intros Hresp Hcol l'. split; [|split; [|split]].
  - apply returns_begin. exact Hresp.
  - rewrite <- (Z.add_0_r col) at 2.
    apply (performs_setCursor_begun Wire_status fuel l dotsize col 0 0 Hresp);
      [lia | reflexivity].
  - rewrite (Z.add_comm 0x40 col).
    apply (performs_setCursor_begun Wire_status fuel l dotsize col 1 0x40 Hresp);
      [lia | reflexivity].
  - intros E. unfold set_DDRAM_address. rewrite E.
    rewrite !lor_0x80 by lia. split; reflexivity.
Qed.

Lemma setCursor_16x2_witness :
  responsive always_ack 1 /\
  0 <= 15 < 16 /\
  returns (begin (h := datasheet) always_ack 1 16 2 0)
    (LiquidTWI_ (h := datasheet) zeroed 0) tt
    (begun (h := datasheet) (LiquidTWI_ (h := datasheet) zeroed 0) 2 0) /\
  performs (setCursor (h := datasheet) always_ack 1 15 0)
    (begun (h := datasheet) (LiquidTWI_ (h := datasheet) zeroed 0) 2 0) tt
    (begun (h := datasheet) (LiquidTWI_ (h := datasheet) zeroed 0) 2 0)
    (bursts (h := datasheet) 0 (nibble_pairs true 0x8F false)) /\
  performs (setCursor (h := datasheet) always_ack 1 15 1)
    (begun (h := datasheet) (LiquidTWI_ (h := datasheet) zeroed 0) 2 0) tt
    (begun (h := datasheet) (LiquidTWI_ (h := datasheet) zeroed 0) 2 0)
    (bursts (h := datasheet) 0 (nibble_pairs true 0xCF false)) /\
  set_DDRAM_address (h := datasheet)
    (begun (h := datasheet) (LiquidTWI_ (h := datasheet) zeroed 0) 2 0)
    (0x40 + 15)
  = command_traffic (h := datasheet)
      (begun (h := datasheet) (LiquidTWI_ (h := datasheet) zeroed 0) 2 0)
      0xCF.
Proof.
  assert (Hcol : 0 <= 15 < 16) by lia.
  split; [exact always_ack_responsive|].
  split; [exact Hcol|].
  destruct (@setCursor_16x2 datasheet always_ack 1
              (LiquidTWI_ (h := datasheet) zeroed 0) 0 15
              always_ack_responsive Hcol)
    as (Hbegin & Hrow0 & Hrow1 & Hbytes).
  split; [exact Hbegin|]. split; [exact Hrow0|]. split; [exact Hrow1|].
  exact (proj2 (Hbytes eq_refl)).
Defined.

Lemma suffix_eq {A} (l pre suf : list A) :
  l = pre ++ suf -> skipn (length l - length suf) l = suf.
Proof.
  intros ->. rewrite length_app, Nat.add_sub, skipn_app, skipn_all, Nat.sub_diag.
  reflexivity.
Qed.

(** C3 as stated, refuted: in the scenario [begin(16,2)], [setCursor(15,1)],
    [write('A')] the request log does not end with the set-DDRAM-address
    command for 0x54 followed by the data byte 0x41. *)
Lemma scenario_address_is_not_0x54 :
  exists l' t' calls,
    sketch (h := datasheet) always_ack 1
      [m_begin 16 2 0; m_setCursor 15 1; m_write 0x41]
      (LiquidTWI_ (h := datasheet) zeroed 0) 0%nat = Returns tt l' t' calls /\
    ~ exists pre,
        requests calls =
        pre ++ set_DDRAM_address (h := datasheet) l' 0x54
            ++ data_traffic (h := datasheet) l' 0x41.
Proof.
  eexists _, _, _. split; [vm_compute; reflexivity|].
  intros [pre E]. apply suffix_eq in E. vm_compute in E. discriminate E.
Qed.

(** C3, amended: in the scenario [begin(16,2)], [setCursor(15,1)],
    [write('A')] the driver emits, after the traffic of [begin], the
    set-DDRAM-address command for the address 0x4F (= 0x40 + 15; the command
    byte is 0xCF with the HD44780's code 0x80) and then the two-nibble data
    burst of the byte 0x41. *)
Theorem scenario_16x2_A {h : LiquidTWI_h} Wire_status fuel l dotsize :
  responsive Wire_status fuel ->
  let l' := begun l 2 dotsize in
  exists pre,
    performs (begin Wire_status fuel 16 2 dotsize) l tt l' pre /\
    performs
      (sketch Wire_status fuel
         [m_begin 16 2 dotsize; m_setCursor 15 1; m_write 0x41])
      l tt l'
      (pre ++ set_DDRAM_address l' 0x4F ++ data_traffic l' 0x41) /\
    (LCD_SETDDRAMADDR = 0x80 ->
     set_DDRAM_address l' 0x4F = command_traffic l' 0xCF).
Proof.
  intros Hresp l'. eexists. split; [|split].
  - apply (performs_begin Wire_status fuel Hresp 16 2 dotsize l).
  - cbn [sketch invoke]. eapply performs_eq.
    + eapply performs_bind;
        [apply (performs_begin Wire_status fuel Hresp 16 2 dotsize l)|].
      eapply performs_bind.
      { apply (performs_setCursor_begun Wire_status fuel l dotsize 15 1 0x40
                 Hresp); [lia | reflexivity]. }
      eapply performs_bind; [|apply performs_ret].
      eapply performs_bind; [|apply performs_ret].
      apply (performs_write Wire_status fuel Hresp 0x41).
      unfold is_u8. lia.
    + reflexivity.
    + rewrite !app_nil_r. reflexivity.
  - intros E. unfold set_DDRAM_address. rewrite E. reflexivity.
Qed.

Lemma scenario_16x2_A_witness :
  responsive always_ack 1 /\
  exists pre,
    performs (begin (h := datasheet) always_ack 1 16 2 0)
      (LiquidTWI_ (h := datasheet) zeroed 0) tt
      (begun (h := datasheet) (LiquidTWI_ (h := datasheet) zeroed 0) 2 0) pre /\
    performs
      (sketch (h := datasheet) always_ack 1
         [m_begin 16 2 0; m_setCursor 15 1; m_write 0x41])
      (LiquidTWI_ (h := datasheet) zeroed 0) tt
      (begun (h := datasheet) (LiquidTWI_ (h := datasheet) zeroed 0) 2 0)
      (pre ++ bursts (h := datasheet) 0 (nibble_pairs true 0xCF false)
           ++ bursts (h := datasheet) 0 (nibble_pairs true 0x41 true)).
Proof.
  split; [exact always_ack_responsive|].
  destruct (@scenario_16x2_A datasheet always_ack 1
              (LiquidTWI_ (h := datasheet) zeroed 0) 0 always_ack_responsive)
    as (pre & Hbegin & Hrun & _).
  exists pre. split; [exact Hbegin | exact Hrun].
Defined.

(** C4 as stated, refuted: with [lineCount == 0] a caller passing
    [row == lineCount] does not underflow: the row stays 0 and [setCursor]
    reads the first entry of the table and returns. *)
Lemma setCursor_row0_lines0_in_bounds :
  let l := begun (h := datasheet) (LiquidTWI_ (h := datasheet) zeroed 0) 0 0 in
  _numlines l = 0 /\
  setCursor_row (_numlines l) 0 = 0 /\
  nth_error row_offsets (Z.to_nat (setCursor_row (_numlines l) 0)) = Some 0 /\
  exists t' calls,
    setCursor (h := datasheet) always_ack 1 0 0 l 0%nat = Returns tt l t' calls.
Proof.
  cbv zeta. split; [reflexivity|]. split; [reflexivity|]. split; [reflexivity|].
  eexists _, _. vm_compute. reflexivity.
Qed.

(** C4, amended: in [setCursor(col,row)] a row above [lineCount] is
    replaced by [lineCount - 1] as a [uint8_t], not clamped to the bounds of
    the 4-entry table; with [lineCount == 0] every row above 0 underflows to
    255; and whenever the resulting index is 4 or more, as it is then and as
    it is for a row above a [lineCount] above 4, the read of the table is
    out of bounds. *)
Theorem setCursor_row_not_clamped {h : LiquidTWI_h} Wire_status fuel l col row :
  is_u8 row ->
  is_u8 (_numlines l) ->
  let r := setCursor_row (_numlines l) row in
  (_numlines l < row -> r = u8 (_numlines l - 1)) /\
  (_numlines l = 0 -> 0 < row -> r = 255) /\
  (4 < _numlines l < row -> 4 <= r) /\
  (4 <= r -> forall t, setCursor Wire_status fuel col row l t = OutOfBounds).
Proof.
  intros Hrow Hlines r. unfold is_u8 in Hrow, Hlines.
  assert (Hred : _numlines l < row -> r = u8 (_numlines l - 1)).
  { intros Hlt. unfold r, setCursor_row.
    rewrite (proj2 (Z.gtb_gt _ _)) by lia. reflexivity. }
  split; [exact Hred|]. split; [|split].
  - intros H0 Hpos. rewrite Hred by lia. rewrite H0. reflexivity.
  - intros Hbig. rewrite Hred by lia. rewrite u8_small; unfold is_u8; lia.
  - intros Hr t. unfold setCursor, bind, gets. fold r.
    unfold index. rewrite (proj2 (Z.ltb_ge _ _)) by lia.
    destruct (nth_error row_offsets (Z.to_nat r)) as [offset|] eqn:E.
    + assert (Hlen : (Z.to_nat r < length row_offsets)%nat).
      { apply nth_error_Some. rewrite E. discriminate. }
      cbn [row_offsets length] in Hlen. lia.
    + reflexivity.
Qed.

Lemma setCursor_row_not_clamped_witness :
  let l := begun (h := datasheet) (LiquidTWI_ (h := datasheet) zeroed 0) 0 0 in
  is_u8 1 /\ is_u8 (_numlines l) /\
  setCursor_row (_numlines l) 1 = 255 /\
  forall t, setCursor (h := datasheet) always_ack 1 0 1 l t = OutOfBounds.
Proof.
  cbv zeta.
  assert (H1 : is_u8 1) by (unfold is_u8; lia).
  assert (H0 : is_u8 0) by (unfold is_u8; lia).
  destruct (@setCursor_row_not_clamped datasheet always_ack 1
              (begun (h := datasheet) (LiquidTWI_ (h := datasheet) zeroed 0) 0 0)
              0 1 H1 H0)
    as (_ & Hunder & _ & Hout).
  split; [exact H1|]. split; [exact H0|].
  split; [apply Hunder; [reflexivity | lia]|].
  apply Hout. rewrite Hunder; [lia | reflexivity | lia].
Defined.

(** * Further properties of the member functions *)

(** ** What a run of [send] puts on the bus *)

(** Every run of [send] that returns has written the four GPIO bytes of the
    low eight bits of [value], and left the object alone. *)
Lemma post_send {h : LiquidTWI_h} Wire_status fuel value mode l :
  post (send Wire_status fuel value mode) l
    (fun _ l' rs =>
       l' = l /\
       rs = bursts (_i2cAddr l)
              (nibble_pairs (lit l) (u8 value) (nonzero mode))).
Proof.
  unfold send.
  assert (HF0 : is_u8 B11110000) by (unfold is_u8, B11110000; lia).
  assert (H0F : is_u8 B1111) by (unfold is_u8, B1111; lia).
  rewrite (land_u8 value _ HF0), (land_u8 value _ H0F).
  pose proof (u8_range value) as Hv. generalize dependent (u8 value).
  intros v Hv.
  eapply post_bind; [apply post_gets|]. intros dc l1 r1 (-> & -> & ->).
  eapply post_bind; [apply post_burstBits|]. intros [] l1 r1 (-> & ->).
  eapply post_bind; [apply post_burstBits|]. intros [] l1 r2 (-> & ->).
  eapply post_bind; [apply post_gets|]. intros dc l1 r3 (-> & -> & ->).
  eapply post_bind; [apply post_burstBits|]. intros [] l1 r4 (-> & ->).
  eapply post_weaken; [apply post_burstBits|]. intros [] l1 r5 (-> & ->).
  split; [reflexivity|].
  unfold bursts, nibble_pairs, lit, backlight_bit. cbn [flat_map app].
  destruct (nonzero mode), (nonzero (Z.land (_displaycontrol l) LCD_BACKLIGHT));
    unfold burst; cbn [app];
    repeat (apply (f_equal2 (@cons _)); [try reflexivity|]);
    try reflexivity; f_equal; by_bytes v Hv.
Qed.

Lemma bursts_inj {h : LiquidTWI_h} a vs ws :
  bursts a vs = bursts a ws -> vs = ws.
Proof.
  revert ws. induction vs as [|v vs IH]; intros [|w ws] E;
    try reflexivity; try discriminate E.
  cbn in E. inversion E as [[Ev Erest]]. f_equal. apply IH. exact Erest.
Qed.

Lemma pins_inj lite n1 e1 r1 n2 e2 r2 :
  0 <= n1 < 16 -> 0 <= n2 < 16 ->
  pins lite n1 e1 r1 = pins lite n2 e2 r2 -> n1 = n2 /\ e1 = e2 /\ r1 = r2.
Proof.
  unfold pins. intros H1 H2 E.
  destruct lite, e1, r1, e2, r2; cbn [Z.b2z] in E;
    repeat split; try reflexivity; lia.
Qed.

(** X13: on one object, two calls of [send] that put the same bytes on the
    bus were given the same byte and the same mode (as a condition): no two
    bytes, and no command and data byte, look alike to the LCD. *)
Theorem send_traffic_injective
    {h : LiquidTWI_h} Wire_status fuel l v1 mode1 v2 mode2
    t1 a1 l1 t1' c1 t2 a2 l2 t2' c2 :
  is_u8 v1 -> is_u8 v2 ->
  send Wire_status fuel v1 mode1 l t1 = Returns a1 l1 t1' c1 ->
  send Wire_status fuel v2 mode2 l t2 = Returns a2 l2 t2' c2 ->
  requests c1 = requests c2 ->
  v1 = v2 /\ nonzero mode1 = nonzero mode2.
Proof.
  intros Hv1 Hv2 E1 E2 Hsame.
  destruct (post_send Wire_status fuel v1 mode1 l _ _ _ _ _ E1) as [_ R1].
  destruct (post_send Wire_status fuel v2 mode2 l _ _ _ _ _ E2) as [_ R2].
  rewrite R1, R2 in Hsame. apply bursts_inj in Hsame.
  rewrite (u8_small v1 Hv1), (u8_small v2 Hv2) in Hsame.
  unfold nibble_pairs in Hsame. injection Hsame as Hhi _ Hlo _.
  unfold is_u8 in Hv1, Hv2.
  apply pins_inj in Hhi;
    [|split; [apply Z.div_pos; lia | apply Z.div_lt_upper_bound; lia]
     |split; [apply Z.div_pos; lia | apply Z.div_lt_upper_bound; lia]].
  apply pins_inj in Hlo; [|apply Z.mod_pos_bound; lia|apply Z.mod_pos_bound; lia].
  destruct Hhi as (Hhi & _ & Hrs). destruct Hlo as (Hlo & _ & _).
  split; [|exact Hrs].
  rewrite (Z.div_mod v1 16), (Z.div_mod v2 16) by lia. congruence.
Qed.

Lemma send_traffic_injective_witness :
  is_u8 0x41 /\
  exists c1 c2,
    requests c1 = requests c2 /\
    (0x41 = 0x41 /\ nonzero HIGH = nonzero 3).
Proof.
  assert (Hv : is_u8 0x41) by (unfold is_u8; lia).
  split; [exact Hv|].
  destruct (send (h := datasheet) always_ack 1 0x41 HIGH zeroed 0%nat)
    as [a1 l1 t1 c1| |] eqn:E1;
    [|vm_compute in E1; discriminate E1|vm_compute in E1; discriminate E1].
  destruct (send (h := datasheet) always_ack 1 0x41 3 zeroed 5%nat)
    as [a2 l2 t2 c2| |] eqn:E2;
    [|vm_compute in E2; discriminate E2|vm_compute in E2; discriminate E2].
  assert (Hsame : requests c1 = requests c2).
  { vm_compute in E1. vm_compute in E2.
    injection E1 as _ _ _ <-. injection E2 as _ _ _ <-. reflexivity. }
  exists c1, c2. split; [exact Hsame|].
  exact (@send_traffic_injective datasheet always_ack 1 zeroed 0x41 HIGH 0x41 3
           _ _ _ _ _ _ _ _ _ _ Hv Hv E1 E2 Hsame).
Defined.

(** ** Relations that every run keeps *)

Section Frame.

Context {h : LiquidTWI_h}.
Variable Wire_status : nat -> Z.
Variable fuel : nat.
Variable R : LiquidTWI -> LiquidTWI -> list event -> Prop.
Hypothesis R_nil : forall l, R l l [].
Hypothesis R_app :
  forall l l1 l2 r1 r2, R l l1 r1 -> R l1 l2 r2 -> R l l2 (r1 ++ r2).

Lemma framed_ret {A} (a : A) : framed R (ret a).
Proof.
  intros l. eapply post_weaken; [apply post_ret|].
  intros a' l' rs (_ & -> & ->). apply R_nil.
Qed.

Lemma framed_gets {A} (f : LiquidTWI -> A) : framed R (gets f).
Proof.
  intros l. eapply post_weaken; [apply post_gets|].
  intros a' l' rs (_ & -> & ->). apply R_nil.
Qed.

Lemma framed_modify f : (forall l, R l (f l) []) -> framed R (modify f).
Proof.
  intros Hf l. eapply post_weaken; [apply post_modify|].
  intros a' l' rs (-> & ->). apply Hf.
Qed.

Lemma framed_call e : (forall l, R l l (requests [e])) -> framed R (call e).
Proof.
  intros He l. eapply post_weaken; [apply post_call|].
  intros a' l' rs (-> & ->). apply He.
Qed.

Lemma framed_bind {A B} (m : M A) (f : A -> M B) :
  framed R m -> (forall a, framed R (f a)) -> framed R (bind m f).
Proof.
  intros Hm Hf l. eapply post_bind; [apply Hm|].
  intros a l1 r1 H1. eapply post_weaken; [apply Hf|].
  intros b l2 r2 H2. exact (R_app _ _ _ _ _ H1 H2).
Qed.

Lemma framed_index a i : framed R (index a i).
Proof.
  unfold index. destruct (i <? 0); [intros l t x l' t' calls E; discriminate E|].
  destruct (nth_error a (Z.to_nat i)); [apply framed_ret|].
  intros l t x l' t' calls E. discriminate E.
Qed.

Lemma framed_for_ ixs body :
  (forall i, framed R (body i)) -> framed R (for_ ixs body).
Proof.
  intros Hbody. induction ixs as [|i ixs IH]; [apply framed_ret|].
  apply framed_bind; [apply Hbody | intros _; exact IH].
Qed.

Lemma framed_endTransmission : framed R (Wire_endTransmission Wire_status).
Proof. intros l t a l' t' calls E. inversion E; subst. apply R_nil. Qed.

Hypothesis R_burst : forall l value, R l l (burst (_i2cAddr l) value).

Lemma framed_burstBits value : framed R (burstBits Wire_status fuel value).
Proof.
  intros l. eapply post_weaken; [apply post_burstBits|].
  intros [] l' rs (-> & ->). apply R_burst.
Qed.

Lemma framed_send value mode : framed R (send Wire_status fuel value mode).
Proof.
  unfold send.
  repeat first
    [ apply framed_burstBits
    | apply framed_gets
    | apply framed_bind; [|intros ?] ].
Qed.

End Frame.

(** Takes a member function apart down to [send], [burstBits] and the
    primitives; what is left are the assignments and the calls. *)
Ltac frame :=
  repeat match goal with
    | |- framed _ (send _ _ _ _) => apply framed_send; assumption
    | |- framed _ (burstBits _ _ _) => apply framed_burstBits; assumption
    | |- framed _ (ret _) => apply framed_ret; assumption
    | |- framed _ (gets _) => apply framed_gets; assumption
    | |- framed _ (index _ _) => apply framed_index; assumption
    | |- framed _ (Wire_endTransmission _) =>
        apply framed_endTransmission; assumption
    | |- framed _ (for_ _ _) =>
        apply framed_for_; [assumption | assumption | intros ?]
    | |- framed _ (bind _ _) => apply framed_bind; [assumption | | intros ?]
    | |- framed _ (if ?b then _ else _) => destruct b
    end.

Lemma framed_sketch {h : LiquidTWI_h} Wire_status fuel R (P : method -> bool) ms :
  (forall l, R l l []) ->
  (forall l l1 l2 r1 r2, R l l1 r1 -> R l1 l2 r2 -> R l l2 (r1 ++ r2)) ->
  (forall m, P m = false -> framed R (invoke Wire_status fuel m)) ->
  existsb P ms = false ->
  framed R (sketch Wire_status fuel ms).
Proof.
  intros Hnil Happ Hinvoke.
  induction ms as [|m ms IH]; intros Hms; [apply framed_ret; exact Hnil|].
  cbn [existsb] in Hms. apply Bool.orb_false_iff in Hms as [Hm Hms].
  apply framed_bind;
    [exact Happ | apply Hinvoke; exact Hm | intros _; exact (IH Hms)].
Qed.

(** ** The member functions that only transmit *)

Lemma same_object_invoke {h : LiquidTWI_h} Wire_status fuel m :
  assigns_fields m = false -> framed same_object (invoke Wire_status fuel m).
Proof.
  assert (Hnil : forall l, same_object l l []) by reflexivity.
  assert (Happ : forall l l1 l2 r1 r2,
             same_object l l1 r1 -> same_object l1 l2 r2 ->
             same_object l l2 (r1 ++ r2)).
  { unfold same_object. intros; congruence. }
  assert (Hburst : forall l value, same_object l l (burst (_i2cAddr l) value))
    by reflexivity.
  destruct m; try discriminate; intros _; cbn [invoke];
    unfold clear, home, setCursor, scrollDisplayLeft, scrollDisplayRight,
      createChar, write, command, delayMicroseconds;
    frame.
  all: apply framed_call; reflexivity.
Qed.

(** X4: [clear], [home], [setCursor], the two scroll functions,
    [createChar], [command] and [write] assign no field: a sketch made of
    them leaves the object exactly as it was, whenever it returns. *)
Theorem transmitters_leave_object
    {h : LiquidTWI_h} Wire_status fuel ms l t l' t' calls :
  existsb assigns_fields ms = false ->
  sketch Wire_status fuel ms l t = Returns tt l' t' calls ->
  l' = l.
Proof.
  intros Hms Hrun.
  refine (framed_sketch Wire_status fuel same_object assigns_fields ms
            _ _ _ Hms l _ _ _ _ _ Hrun).
  - reflexivity.
  - unfold same_object. intros; congruence.
  - intros m Hm. apply same_object_invoke. exact Hm.
Qed.

Lemma transmitters_leave_object_witness :
  exists l' t' calls,
    sketch (h := datasheet) always_ack 1
      [m_setCursor 3 1; m_write 0x41; m_createChar 2 [1; 2; 3; 4; 5; 6; 7; 8];
       m_scrollDisplayLeft; m_home]
      (begun (h := datasheet) zeroed 2 0) 0%nat
    = Returns tt l' t' calls /\
    l' = begun (h := datasheet) zeroed 2 0.
Proof.
  destruct (sketch (h := datasheet) always_ack 1
      [m_setCursor 3 1; m_write 0x41; m_createChar 2 [1; 2; 3; 4; 5; 6; 7; 8];
       m_scrollDisplayLeft; m_home]
      (begun (h := datasheet) zeroed 2 0) 0%nat)
    as [[] l' t' calls| |] eqn:E;
    [|vm_compute in E; discriminate E|vm_compute in E; discriminate E].
  exists l', t', calls. split; [reflexivity|].
  exact (@transmitters_leave_object datasheet always_ack 1
           [m_setCursor 3 1; m_write 0x41;
            m_createChar 2 [1; 2; 3; 4; 5; 6; 7; 8];
            m_scrollDisplayLeft; m_home]
           _ _ _ _ _ eq_refl E).
Defined.

(** ** The device addressed *)

Lemma own_device_nil {h : LiquidTWI_h} l : own_device l l [].
Proof. split; [reflexivity | apply Forall_nil]. Qed.

Lemma own_device_app {h : LiquidTWI_h} l l1 l2 r1 r2 :
  own_device l l1 r1 -> own_device l1 l2 r2 -> own_device l l2 (r1 ++ r2).
Proof.
  intros [E1 F1] [E2 F2]. split; [congruence|].
  apply Forall_app. split; [exact F1|]. rewrite <- E1. exact F2.
Qed.

Lemma own_device_burst {h : LiquidTWI_h} l value :
  own_device l l (burst (_i2cAddr l) value).
Proof. split; [reflexivity|]. repeat constructor. Qed.

Lemma own_device_begin_expander {h : LiquidTWI_h} Wire_status :
  framed own_device (begin_expander Wire_status).
Proof.
  intros l t a l' t' calls E.
  unfold begin_expander, bind, gets, Wire_beginTransmission, Wire_write,
    Wire_endTransmission, call, ret in E.
  cbn in E. inversion E; subst.
  split; [reflexivity|]. repeat constructor.
Qed.

Lemma own_device_invoke {h : LiquidTWI_h} Wire_status fuel m :
  framed own_device (invoke Wire_status fuel m).
Proof.
  pose proof own_device_nil as Hnil.
  pose proof own_device_app as Happ.
  pose proof own_device_burst as Hburst.
  destruct m; cbn [invoke];
    unfold begin, begin_4bitmode, clear, home, setCursor,
      noDisplay, display, noCursor, cursor, noBlink, blink,
      scrollDisplayLeft, scrollDisplayRight, leftToRight, rightToLeft,
      autoscroll, noAutoscroll, createChar, setBacklight,
      command_displaycontrol, command_entrymode, command_functionset,
      displaycontrol_set, displaycontrol_clear, displaymode_set,
      displaymode_clear, displayfunction_set, write, command,
      delay, delayMicroseconds, Wire_begin;
    frame.
  all: first
    [ apply own_device_begin_expander
    | apply framed_modify; intros l0; split; [reflexivity | apply Forall_nil]
    | apply framed_call; intros l0; split; [reflexivity | repeat constructor] ].
Qed.

Lemma addressed_to_requests a calls :
  Forall (addressed_to a) (requests calls) -> Forall (addressed_to a) calls.
Proof.
  induction calls as [|e calls IH]; intros H; [apply Forall_nil|].
  destruct e; cbn in H;
    try (inversion H; subst; apply Forall_cons; [assumption | apply IH; assumption]).
  apply Forall_cons; [exact I | apply IH; exact H].
Qed.

(** X11: an object only ever talks to its own device: in every run of a
    sketch on a constructed object, each [Wire.beginTransmission] is given
    [MCP23008_ADDRESS | a], where [a] is the constructor's argument, or 7 if
    that is above 7. *)
Theorem transmissions_to_own_device
    {h : LiquidTWI_h} Wire_status fuel storage a ms t l t' calls :
  sketch Wire_status fuel ms (LiquidTWI_ storage a) t = Returns tt l t' calls ->
  Forall (addressed_to (Z.lor MCP23008_ADDRESS (if a >? 7 then 7 else a)))
    calls.
Proof.
  intros Hrun. apply addressed_to_requests.
  refine (proj2 (framed_sketch Wire_status fuel own_device (fun _ => false) ms
                   own_device_nil own_device_app _ _
                   (LiquidTWI_ storage a) _ _ _ _ _ Hrun)).
  - intros m _. apply own_device_invoke.
  - clear Hrun. induction ms as [|m ms IH]; [reflexivity | exact IH].
Qed.

Lemma transmissions_to_own_device_witness :
  exists l t' calls,
    sketch (h := datasheet) always_ack 1
      [m_begin 20 4 0; m_noCursor; m_setCursor 0 3; m_write 0x41]
      (LiquidTWI_ (h := datasheet) zeroed 9) 0%nat
    = Returns tt l t' calls /\
    Forall (addressed_to 0x27) calls.
Proof.
  destruct (sketch (h := datasheet) always_ack 1
      [m_begin 20 4 0; m_noCursor; m_setCursor 0 3; m_write 0x41]
      (LiquidTWI_ (h := datasheet) zeroed 9) 0%nat)
    as [[] l t' calls| |] eqn:E;
    [|vm_compute in E; discriminate E|vm_compute in E; discriminate E].
  exists l, t', calls. split; [reflexivity|].
  exact (@transmissions_to_own_device datasheet always_ack 1 zeroed 9
           [m_begin 20 4 0; m_noCursor; m_setCursor 0 3; m_write 0x41]
           _ _ _ _ E).
Defined.

(** ** The transport is not observed *)

Lemma agree_ret {A} (a : A) : agree (ret a) (ret a).
Proof.
  intros l t1 t2 a1 l1 t1' c1 a2 l2 t2' c2 E1 E2.
  inversion E1; inversion E2; subst. auto.
Qed.

Lemma agree_gets {A} (f : LiquidTWI -> A) : agree (gets f) (gets f).
Proof.
  intros l t1 t2 a1 l1 t1' c1 a2 l2 t2' c2 E1 E2.
  inversion E1; inversion E2; subst. auto.
Qed.

Lemma agree_modify f : agree (modify f) (modify f).
Proof.
  intros l t1 t2 a1 l1 t1' c1 a2 l2 t2' c2 E1 E2.
  inversion E1; inversion E2; subst. auto.
Qed.

Lemma agree_call e : agree (call e) (call e).
Proof.
  intros l t1 t2 a1 l1 t1' c1 a2 l2 t2' c2 E1 E2.
  inversion E1; inversion E2; subst. auto.
Qed.

Lemma agree_index a i : agree (index a i) (index a i).
Proof.
  unfold index. destruct (i <? 0).
  - intros l t1 t2 a1 l1 t1' c1 a2 l2 t2' c2 E1 E2. discriminate E1.
  - destruct (nth_error a (Z.to_nat i)); [apply agree_ret|].
    intros l t1 t2 a1 l1 t1' c1 a2 l2 t2' c2 E1 E2. discriminate E1.
Qed.

Lemma agree_bind {A B} (m1 m2 : M A) (f1 f2 : A -> M B) :
  agree m1 m2 -> (forall a, agree (f1 a) (f2 a)) ->
  agree (bind m1 f1) (bind m2 f2).
Proof.
  intros Hm Hf l t1 t2 b1 l1 t1' c1 b2 l2 t2' c2 E1 E2. unfold bind in E1, E2.
  destruct (m1 l t1) as [x1 k1 u1 d1| |] eqn:M1; try discriminate.
  destruct (f1 x1 k1 u1) as [y1 k1' u1' d1'| |] eqn:F1; try discriminate.
  destruct (m2 l t2) as [x2 k2 u2 d2| |] eqn:M2; try discriminate.
  destruct (f2 x2 k2 u2) as [y2 k2' u2' d2'| |] eqn:F2; try discriminate.
  inversion E1; inversion E2; subst.
  destruct (Hm _ _ _ _ _ _ _ _ _ _ _ M1 M2) as (-> & -> & Hr).
  destruct (Hf _ _ _ _ _ _ _ _ _ _ _ _ F1 F2) as (-> & -> & Hr').
  rewrite !requests_app, Hr, Hr'. auto.
Qed.

Lemma agree_for_ ixs body1 body2 :
  (forall i, agree (body1 i) (body2 i)) ->
  agree (for_ ixs body1) (for_ ixs body2).
Proof.
  intros Hbody. induction ixs as [|i ixs IH]; [apply agree_ret|].
  apply agree_bind; [apply Hbody | intros _; exact IH].
Qed.

(** Two programs with the same exact outcome on every object agree. *)
Lemma agree_post {A} (m1 m2 : M A) (out : LiquidTWI -> A * LiquidTWI * list event) :
  (forall l, post m1 l (fun a l' rs => (a, l', rs) = out l)) ->
  (forall l, post m2 l (fun a l' rs => (a, l', rs) = out l)) ->
  agree m1 m2.
Proof.
  intros H1 H2 l t1 t2 a1 l1 t1' c1 a2 l2 t2' c2 E1 E2.
  pose proof (H1 l _ _ _ _ _ E1) as P1. pose proof (H2 l _ _ _ _ _ E2) as P2.
  cbv beta in P1, P2. rewrite <- P2 in P1. inversion P1. auto.
Qed.

Section Transports.

Context {h : LiquidTWI_h}.
Variables status1 status2 : nat -> Z.
Variables fuel1 fuel2 : nat.

Lemma agree_burstBits value :
  agree (burstBits status1 fuel1 value) (burstBits status2 fuel2 value).
Proof.
  apply agree_post with (out := fun l => (tt, l, burst (_i2cAddr l) value));
    intros l; (eapply post_weaken; [apply post_burstBits|]);
    intros [] l' rs (-> & ->); reflexivity.
Qed.

Lemma agree_send value mode :
  agree (send status1 fuel1 value mode) (send status2 fuel2 value mode).
Proof.
  apply agree_post
    with (out := fun l =>
            (tt, l, bursts (_i2cAddr l)
                      (nibble_pairs (lit l) (u8 value) (nonzero mode))));
    intros l; (eapply post_weaken; [apply post_send|]);
    intros [] l' rs (-> & ->); reflexivity.
Qed.

Lemma agree_begin_expander :
  agree (begin_expander status1) (begin_expander status2).
Proof.
  intros l t1 t2 a1 l1 t1' c1 a2 l2 t2' c2 E1 E2.
  unfold begin_expander, bind, gets, Wire_beginTransmission, Wire_write,
    Wire_endTransmission, call, ret in E1, E2.
  cbn in E1, E2. inversion E1; inversion E2; subst. auto.
Qed.

Lemma agree_invoke m :
  agree (invoke status1 fuel1 m) (invoke status2 fuel2 m).
Proof.
  destruct m; cbn [invoke];
    unfold begin, begin_4bitmode, clear, home, setCursor,
      noDisplay, display, noCursor, cursor, noBlink, blink,
      scrollDisplayLeft, scrollDisplayRight, leftToRight, rightToLeft,
      autoscroll, noAutoscroll, createChar, setBacklight,
      command_displaycontrol, command_entrymode, command_functionset,
      displaycontrol_set, displaycontrol_clear, displaymode_set,
      displaymode_clear, displayfunction_set, write, command,
      delay, delayMicroseconds, Wire_begin;
    repeat match goal with
      | |- agree (send _ _ _ _) _ => apply agree_send
      | |- agree (burstBits _ _ _) _ => apply agree_burstBits
      | |- agree (begin_expander _) _ => apply agree_begin_expander
      | |- agree (ret _) _ => apply agree_ret
      | |- agree (gets _) _ => apply agree_gets
      | |- agree (modify _) _ => apply agree_modify
      | |- agree (call _) _ => apply agree_call
      | |- agree (index _ _) _ => apply agree_index
      | |- agree (for_ _ _) _ => apply agree_for_; intros ?
      | |- agree (bind _ _) _ => apply agree_bind; [|intros ?]
      | |- agree (if ?b then _ else _) _ => destruct b
      end.
Qed.

Lemma agree_sketch ms :
  agree (sketch status1 fuel1 ms) (sketch status2 fuel2 ms).
Proof.
  induction ms as [|m ms IH]; [apply agree_ret|].
  apply agree_bind; [apply agree_invoke | intros _; exact IH].
Qed.

End Transports.

(** X12: the driver never looks at the status of a transmission but to
    retry: two runs of one sketch on one object, over any two transports
    and from any two points of them, leave the same object and make the
    same requests if both return. *)
Theorem transport_not_observed
    {h : LiquidTWI_h} status1 fuel1 status2 fuel2 ms l
    t1 l1 t1' c1 t2 l2 t2' c2 :
  sketch status1 fuel1 ms l t1 = Returns tt l1 t1' c1 ->
  sketch status2 fuel2 ms l t2 = Returns tt l2 t2' c2 ->
  l1 = l2 /\ requests c1 = requests c2.
Proof.
  intros E1 E2.
  exact (proj2 (agree_sketch status1 status2 fuel1 fuel2 ms
                  _ _ _ _ _ _ _ _ _ _ _ E1 E2)).
Qed.

Lemma transport_not_observed_witness :
  exists l1 t1' c1 l2 t2' c2,
    sketch (h := datasheet) always_ack 1 [m_begin 16 2 0; m_write 0x41]
      zeroed 0%nat = Returns tt l1 t1' c1 /\
    sketch (h := datasheet) (nack_first 3) 4 [m_begin 16 2 0; m_write 0x41]
      zeroed 0%nat = Returns tt l2 t2' c2 /\
    l1 = l2 /\ requests c1 = requests c2 /\ c1 <> c2.
Proof.
  destruct (sketch (h := datasheet) always_ack 1 [m_begin 16 2 0; m_write 0x41]
              zeroed 0%nat)
    as [[] l1 t1' c1| |] eqn:E1;
    [|vm_compute in E1; discriminate E1|vm_compute in E1; discriminate E1].
  destruct (sketch (h := datasheet) (nack_first 3) 4
              [m_begin 16 2 0; m_write 0x41] zeroed 0%nat)
    as [[] l2 t2' c2| |] eqn:E2;
    [|vm_compute in E2; discriminate E2|vm_compute in E2; discriminate E2].
  exists l1, t1', c1, l2, t2', c2.
  split; [reflexivity|]. split; [reflexivity|].
  destruct (@transport_not_observed datasheet always_ack 1 (nack_first 3) 4
              [m_begin 16 2 0; m_write 0x41] zeroed _ _ _ _ _ _ _ _ E1 E2)
    as [Hl Hr].
  split; [exact Hl|]. split; [exact Hr|].
  intros Hc. apply (f_equal (@length event)) in Hc.
  vm_compute in E1. vm_compute in E2.
  injection E1 as _ _ <-. injection E2 as _ _ <-.
  vm_compute in Hc. discriminate Hc.
Defined.

(** ** Switching flags on and off *)

Lemma u8_eq_bits x y :
  (forall n, 0 <= n < 8 -> Z.testbit x n = Z.testbit y n) -> u8 x = u8 y.
Proof.
  intros H. apply Z.bits_inj'. intros n Hn.
  destruct (Z.ltb_spec n 8) as [Hlt|Hge].
  - rewrite !u8_testbit by lia. apply H. lia.
  - unfold u8. change 256 with (2 ^ 8).
    rewrite !Z.mod_pow2_bits_high by lia. reflexivity.
Qed.

Lemma with_bits x flag n :
  0 <= n < 8 ->
  Z.testbit (u8 (Z.lor x flag)) n = Z.testbit x n || Z.testbit flag n.
Proof. intros Hn. rewrite u8_testbit by exact Hn. apply Z.lor_spec. Qed.

Lemma without_bits x flag n :
  0 <= n < 8 ->
  Z.testbit (u8 (Z.land x (Z.lnot flag))) n
  = Z.testbit x n && negb (Z.testbit flag n).
Proof.
  intros Hn. rewrite u8_testbit by exact Hn.
  rewrite Z.land_spec, Z.lnot_spec by lia. reflexivity.
Qed.

Lemma with_after_without x flag :
  u8 (Z.lor (u8 (Z.land x (Z.lnot flag))) flag) = u8 (Z.lor x flag).
Proof.
  apply u8_eq_bits. intros n Hn.
  rewrite !Z.lor_spec, without_bits by exact Hn.
  destruct (Z.testbit x n), (Z.testbit flag n); reflexivity.
Qed.

Lemma without_after_with x flag :
  u8 (Z.land (u8 (Z.lor x flag)) (Z.lnot flag)) = u8 (Z.land x (Z.lnot flag)).
Proof.
  apply u8_eq_bits. intros n Hn.
  rewrite !Z.land_spec, with_bits, Z.lnot_spec by lia.
  destruct (Z.testbit x n), (Z.testbit flag n); reflexivity.
Qed.

Lemma with_after_with x flag :
  u8 (Z.lor (u8 (Z.lor x flag)) flag) = u8 (Z.lor x flag).
Proof.
  apply u8_eq_bits. intros n Hn.
  rewrite !Z.lor_spec, with_bits by exact Hn.
  destruct (Z.testbit x n), (Z.testbit flag n); reflexivity.
Qed.

Lemma without_after_without x flag :
  u8 (Z.land (u8 (Z.land x (Z.lnot flag))) (Z.lnot flag))
  = u8 (Z.land x (Z.lnot flag)).
Proof.
  apply u8_eq_bits. intros n Hn.
  rewrite !Z.land_spec, without_bits, Z.lnot_spec by lia.
  destruct (Z.testbit x n), (Z.testbit flag n); reflexivity.
Qed.

Lemma returns_eq {A} (m : M A) l a l1 l2 :
  returns m l a l1 -> l1 = l2 -> returns m l a l2.
Proof. intros H <-. exact H. Qed.

Lemma performs_switch_on {h : LiquidTWI_h} Wire_status fuel c l :
  responsive Wire_status fuel ->
  let l' := set_displaycontrol (displaycontrol_with l (control_mask c)) l in
  performs (invoke Wire_status fuel (switch_on c)) l tt l'
    (command_traffic l' (u8 (Z.lor LCD_DISPLAYCONTROL (_displaycontrol l')))).
Proof.
  intros Hresp l'. destruct c;
    exact (performs_displaycontrol_set Wire_status fuel Hresp _ l).
Qed.

Lemma performs_switch_off {h : LiquidTWI_h} Wire_status fuel c l :
  responsive Wire_status fuel ->
  let l' := set_displaycontrol (displaycontrol_without l (control_mask c)) l in
  performs (invoke Wire_status fuel (switch_off c)) l tt l'
    (command_traffic l' (u8 (Z.lor LCD_DISPLAYCONTROL (_displaycontrol l')))).
Proof.
  intros Hresp l'. destruct c;
    exact (performs_displaycontrol_clear Wire_status fuel Hresp _ l).
Qed.

(** X1: [display], [cursor] and [blink] set the bits of their flag in
    [_displaycontrol], [noDisplay], [noCursor] and [noBlink] clear them; the
    other bits and the other fields stay, and the one command each sends is
    [LCD_DISPLAYCONTROL] with the new flags, under the backlight bit of the
    new flags. *)
Theorem control_flag_switch {h : LiquidTWI_h} Wire_status fuel c l :
  responsive Wire_status fuel ->
  let on := set_displaycontrol (displaycontrol_with l (control_mask c)) l in
  let off := set_displaycontrol (displaycontrol_without l (control_mask c)) l in
  performs (invoke Wire_status fuel (switch_on c)) l tt on
    (command_traffic on (u8 (Z.lor LCD_DISPLAYCONTROL (_displaycontrol on)))) /\
  performs (invoke Wire_status fuel (switch_off c)) l tt off
    (command_traffic off (u8 (Z.lor LCD_DISPLAYCONTROL (_displaycontrol off)))) /\
  (forall n, 0 <= n < 8 ->
     Z.testbit (_displaycontrol on) n
     = Z.testbit (_displaycontrol l) n || Z.testbit (control_mask c) n) /\
  (forall n, 0 <= n < 8 ->
     Z.testbit (_displaycontrol off) n
     = Z.testbit (_displaycontrol l) n && negb (Z.testbit (control_mask c) n)).
Proof.
  intros Hresp on off. split; [|split; [|split]].
  - apply performs_switch_on. exact Hresp.
  - apply performs_switch_off. exact Hresp.
  - intros n Hn. apply with_bits. exact Hn.
  - intros n Hn. apply without_bits. exact Hn.
Qed.

Lemma control_flag_switch_witness :
  responsive always_ack 1 /\
  performs (invoke (h := datasheet) always_ack 1 m_cursor)
    (begun (h := datasheet) zeroed 2 0) tt
    (set_displaycontrol 0x0E (begun (h := datasheet) zeroed 2 0))
    (bursts (h := datasheet) 0 (nibble_pairs true 0x0E false)) /\
  performs (invoke (h := datasheet) always_ack 1 m_noCursor)
    (begun (h := datasheet) zeroed 2 0) tt
    (set_displaycontrol 0x0C (begun (h := datasheet) zeroed 2 0))
    (bursts (h := datasheet) 0 (nibble_pairs true 0x0C false)).
Proof.
  split; [exact always_ack_responsive|].
  destruct (@control_flag_switch datasheet always_ack 1 CursorOn
              (begun (h := datasheet) zeroed 2 0) always_ack_responsive)
    as (Hon & Hoff & _).
  split; [exact Hon | exact Hoff].
Defined.

(** X2: of a flag's two member functions the last call decides: [display]
    after [noDisplay] leaves the object that [display] alone leaves,
    [noDisplay] after [display] the one of [noDisplay] alone, and calling
    either twice is calling it once; likewise for the cursor and the blink
    flag. *)
Theorem control_flag_last_call {h : LiquidTWI_h} Wire_status fuel c l :
  responsive Wire_status fuel ->
  let on := set_displaycontrol (displaycontrol_with l (control_mask c)) l in
  let off := set_displaycontrol (displaycontrol_without l (control_mask c)) l in
  returns (sketch Wire_status fuel [switch_off c; switch_on c]) l tt on /\
  returns (sketch Wire_status fuel [switch_on c; switch_off c]) l tt off /\
  returns (sketch Wire_status fuel [switch_on c; switch_on c]) l tt on /\
  returns (sketch Wire_status fuel [switch_off c; switch_off c]) l tt off.
Proof.
  intros Hresp on off.
  pose proof (fun l => performs_returns _ _ _ _ _
                (performs_switch_on Wire_status fuel c l Hresp)) as Hon.
  pose proof (fun l => performs_returns _ _ _ _ _
                (performs_switch_off Wire_status fuel c l Hresp)) as Hoff.
  cbv zeta in Hon, Hoff.
  repeat split; cbn [sketch].
  - eapply returns_eq.
    + eapply returns_bind; [apply Hoff|].
      eapply returns_bind; [apply Hon | apply returns_ret].
    + unfold on, set_displaycontrol, displaycontrol_with, displaycontrol_without.
      cbn. rewrite with_after_without. reflexivity.
  - eapply returns_eq.
    + eapply returns_bind; [apply Hon|].
      eapply returns_bind; [apply Hoff | apply returns_ret].
    + unfold off, set_displaycontrol, displaycontrol_with, displaycontrol_without.
      cbn. rewrite without_after_with. reflexivity.
  - eapply returns_eq.
    + eapply returns_bind; [apply Hon|].
      eapply returns_bind; [apply Hon | apply returns_ret].
    + unfold on, set_displaycontrol, displaycontrol_with.
      cbn. rewrite with_after_with. reflexivity.
  - eapply returns_eq.
    + eapply returns_bind; [apply Hoff|].
      eapply returns_bind; [apply Hoff | apply returns_ret].
    + unfold off, set_displaycontrol, displaycontrol_without.
      cbn. rewrite without_after_without. reflexivity.
Qed.

Lemma control_flag_last_call_witness :
  responsive always_ack 1 /\
  returns (sketch (h := datasheet) always_ack 1 [m_noDisplay; m_display])
    (begun (h := datasheet) zeroed 2 0) tt
    (begun (h := datasheet) zeroed 2 0) /\
  returns (sketch (h := datasheet) always_ack 1 [m_display; m_noDisplay])
    (begun (h := datasheet) zeroed 2 0) tt
    (set_displaycontrol 0x08 (begun (h := datasheet) zeroed 2 0)).
Proof.
  split; [exact always_ack_responsive|].
  destruct (@control_flag_last_call datasheet always_ack 1 DisplayOn
              (begun (h := datasheet) zeroed 2 0) always_ack_responsive)
    as (Hon & Hoff & _).
  split; [exact Hon | exact Hoff].
Defined.

Lemma performs_mode_on {h : LiquidTWI_h} Wire_status fuel c l :
  responsive Wire_status fuel ->
  let l' := set_displaymode (displaymode_with l (mode_mask c)) l in
  performs (invoke Wire_status fuel (mode_on c)) l tt l'
    (command_traffic l' (u8 (Z.lor LCD_ENTRYMODESET (_displaymode l')))).
Proof.
  intros Hresp l'. destruct c;
    exact (performs_displaymode_set Wire_status fuel Hresp _ l).
Qed.

Lemma performs_mode_off {h : LiquidTWI_h} Wire_status fuel c l :
  responsive Wire_status fuel ->
  let l' := set_displaymode (displaymode_without l (mode_mask c)) l in
  performs (invoke Wire_status fuel (mode_off c)) l tt l'
    (command_traffic l' (u8 (Z.lor LCD_ENTRYMODESET (_displaymode l')))).
Proof.
  intros Hresp l'. destruct c;
    exact (performs_displaymode_clear Wire_status fuel Hresp _ l).
Qed.

(** X3: [leftToRight] and [autoscroll] set the bits of their flag in
    [_displaymode], [rightToLeft] and [noAutoscroll] clear them; the other
    bits and the other fields stay, the one command each sends is
    [LCD_ENTRYMODESET] with the new flags, and of the two member functions
    of a flag the last call decides. *)
Theorem mode_flag_switch {h : LiquidTWI_h} Wire_status fuel c l :
  responsive Wire_status fuel ->
  let on := set_displaymode (displaymode_with l (mode_mask c)) l in
  let off := set_displaymode (displaymode_without l (mode_mask c)) l in
  performs (invoke Wire_status fuel (mode_on c)) l tt on
    (command_traffic on (u8 (Z.lor LCD_ENTRYMODESET (_displaymode on)))) /\
  performs (invoke Wire_status fuel (mode_off c)) l tt off
    (command_traffic off (u8 (Z.lor LCD_ENTRYMODESET (_displaymode off)))) /\
  (forall n, 0 <= n < 8 ->
     Z.testbit (_displaymode on) n
     = Z.testbit (_displaymode l) n || Z.testbit (mode_mask c) n) /\
  (forall n, 0 <= n < 8 ->
     Z.testbit (_displaymode off) n
     = Z.testbit (_displaymode l) n && negb (Z.testbit (mode_mask c) n)) /\
  returns (sketch Wire_status fuel [mode_off c; mode_on c]) l tt on /\
  returns (sketch Wire_status fuel [mode_on c; mode_off c]) l tt off.
Proof.
  intros Hresp on off.
  pose proof (fun l => performs_returns _ _ _ _ _
                (performs_mode_on Wire_status fuel c l Hresp)) as Hon.
  pose proof (fun l => performs_returns _ _ _ _ _
                (performs_mode_off Wire_status fuel c l Hresp)) as Hoff.
  cbv zeta in Hon, Hoff.
  split; [apply performs_mode_on; exact Hresp|].
  split; [apply performs_mode_off; exact Hresp|].
  split; [intros n Hn; apply with_bits; exact Hn|].
  split; [intros n Hn; apply without_bits; exact Hn|].
  split; cbn [sketch].
  - eapply returns_eq.
    + eapply returns_bind; [apply Hoff|].
      eapply returns_bind; [apply Hon | apply returns_ret].
    + unfold on, set_displaymode, displaymode_with, displaymode_without.
      cbn. rewrite with_after_without. reflexivity.
  - eapply returns_eq.
    + eapply returns_bind; [apply Hon|].
      eapply returns_bind; [apply Hoff | apply returns_ret].
    + unfold off, set_displaymode, displaymode_with, displaymode_without.
      cbn. rewrite without_after_with. reflexivity.
Qed.

Lemma mode_flag_switch_witness :
  responsive always_ack 1 /\
  performs (invoke (h := datasheet) always_ack 1 m_autoscroll)
    (begun (h := datasheet) zeroed 2 0) tt
    (set_displaymode 0x03 (begun (h := datasheet) zeroed 2 0))
    (bursts (h := datasheet) 0 (nibble_pairs true 0x07 false)) /\
  returns (sketch (h := datasheet) always_ack 1 [m_leftToRight; m_rightToLeft])
    (begun (h := datasheet) zeroed 2 0) tt
    (set_displaymode 0x00 (begun (h := datasheet) zeroed 2 0)).
Proof.
  split; [exact always_ack_responsive|].
  split.
  - exact (proj1 (@mode_flag_switch datasheet always_ack 1 ShiftIncrement
                    (begun (h := datasheet) zeroed 2 0) always_ack_responsive)).
  - exact (proj2 (proj2 (proj2 (proj2 (proj2
             (@mode_flag_switch datasheet always_ack 1 EntryLeft
                (begun (h := datasheet) zeroed 2 0) always_ack_responsive)))))).
Defined.

(** ** createChar *)

(** The loop body of [createChar]. *)
Lemma performs_charmap_rows {h : LiquidTWI_h} Wire_status fuel l charmap :
  responsive Wire_status fuel ->
  forall rows before rest,
    charmap = before ++ rows ++ rest ->
    Forall is_u8 rows ->
    performs
      (for_ (map Z.of_nat (seq (length before) (length rows)))
         (fun i => c <- index charmap i ;; write Wire_status fuel c ;; ret tt))
      l tt l (flat_map (data_traffic l) rows).
Proof.
  intros Hresp rows.
  induction rows as [|c rows IH]; intros before rest Hmap Hrows.
  - apply performs_ret.
  - inversion Hrows as [|c' rows' Hc Hrows']; subst c' rows'.
    cbn [length seq map for_ flat_map].
    eapply performs_bind.
    + eapply performs_eq.
      * eapply performs_bind with (a := c) (l1 := l) (r1 := []).
        -- unfold index.
           rewrite (proj2 (Z.ltb_ge _ _)) by lia.
           rewrite Nat2Z.id, Hmap, nth_error_app2, Nat.sub_diag by lia.
           apply performs_ret.
        -- eapply performs_bind;
             [apply (performs_write Wire_status fuel Hresp c l Hc)|].
           apply performs_ret.
      * reflexivity.
      * cbn [app]. apply app_nil_r.
    + replace (S (length before)) with (length (before ++ [c]))
        by (rewrite length_app; cbn; lia).
      apply (IH (before ++ [c]) rest); [|exact Hrows'].
      rewrite Hmap, <- app_assoc. reflexivity.
Qed.

Lemma Forall_firstn_ {A} (P : A -> Prop) n xs :
  Forall P xs -> Forall P (firstn n xs).
Proof.
  revert n. induction xs as [|x xs IH]; intros n H.
  - destruct n; apply Forall_nil.
  - destruct n; [apply Forall_nil|]. inversion H; subst.
    cbn [firstn]. apply Forall_cons; [assumption | apply IH; assumption].
Qed.

Lemma land_7_add_8 x : Z.land (x + 8) 0x7 = Z.land x 0x7.
Proof.
  change 0x7 with (Z.ones 3). rewrite !Z.land_ones by lia.
  change (2 ^ 3) with 8. rewrite <- (Z.mul_1_l 8) at 1.
  apply Z.mod_add. lia.
Qed.

Lemma performs_createChar {h : LiquidTWI_h} Wire_status fuel location charmap l :
  responsive Wire_status fuel ->
  (8 <= length charmap)%nat ->
  Forall is_u8 charmap ->
  performs (createChar Wire_status fuel location charmap) l tt l
    (command_traffic l
       (u8 (Z.lor LCD_SETCGRAMADDR (Z.shiftl (u8 (Z.land location 0x7)) 3)))
     ++ flat_map (data_traffic l) (firstn 8 charmap)).
Proof.
  intros Hresp Hlen Hrows. unfold createChar.
  eapply performs_bind.
  - apply (performs_command Wire_status fuel Hresp). apply u8_range.
  - change (seq 0 8) with (seq (length (@nil Z)) 8).
    rewrite <- (firstn_length_le charmap Hlen) at 1.
    apply (performs_charmap_rows Wire_status fuel l charmap Hresp
             (firstn 8 charmap) [] (skipn 8 charmap)).
    + cbn [app]. symmetry. apply firstn_skipn.
    + apply Forall_firstn_. exact Hrows.
Qed.

(** X5: [createChar(location, charmap)] on a map of at least eight rows
    sends the [LCD_SETCGRAMADDR] command for slot [location & 7], shifted
    by three, and then the first eight rows as data bytes, in order; it
    leaves the object as it was; and a location eight higher selects the
    same slot, run for run. *)
Theorem createChar_slot_and_rows
    {h : LiquidTWI_h} Wire_status fuel location charmap l :
  responsive Wire_status fuel ->
  (8 <= length charmap)%nat ->
  Forall is_u8 charmap ->
  performs (createChar Wire_status fuel location charmap) l tt l
    (command_traffic l
       (u8 (Z.lor LCD_SETCGRAMADDR (Z.shiftl (u8 (Z.land location 0x7)) 3)))
     ++ flat_map (data_traffic l) (firstn 8 charmap)) /\
  0 <= u8 (Z.land location 0x7) < 8 /\
  forall t,
    createChar Wire_status fuel (location + 8) charmap l t
    = createChar Wire_status fuel location charmap l t.
Proof.
  intros Hresp Hlen Hrows. split; [|split].
  - apply performs_createChar; assumption.
  - change 0x7 with (Z.ones 3). rewrite Z.land_ones by lia.
    change (2 ^ 3) with 8. unfold u8.
    pose proof (Z.mod_pos_bound location 8 ltac:(lia)) as Hm.
    rewrite Z.mod_small by lia. exact Hm.
  - intros t. unfold createChar. rewrite land_7_add_8. reflexivity.
Qed.

Lemma createChar_slot_and_rows_witness :
  responsive always_ack 1 /\
  (8 <= length [1; 2; 3; 4; 5; 6; 7; 8; 9])%nat /\
  Forall is_u8 [1; 2; 3; 4; 5; 6; 7; 8; 9] /\
  performs
    (createChar (h := datasheet) always_ack 1 10 [1; 2; 3; 4; 5; 6; 7; 8; 9])
    zeroed tt zeroed
    (command_traffic (h := datasheet) zeroed 0x50
     ++ flat_map (data_traffic (h := datasheet) zeroed) [1; 2; 3; 4; 5; 6; 7; 8]).
Proof.
  assert (Hlen : (8 <= length [1; 2; 3; 4; 5; 6; 7; 8; 9])%nat) by (cbn; lia).
  assert (Hrows : Forall is_u8 [1; 2; 3; 4; 5; 6; 7; 8; 9])
    by (repeat constructor; unfold is_u8; lia).
  split; [exact always_ack_responsive|].
  split; [exact Hlen|]. split; [exact Hrows|].
  exact (proj1 (@createChar_slot_and_rows datasheet always_ack 1 10
                  [1; 2; 3; 4; 5; 6; 7; 8; 9] zeroed
                  always_ack_responsive Hlen Hrows)).
Defined.







(** ** setCursor within the table *)

(** X7: on an object of one to four lines, [setCursor(col,row)] stays
    within [row_offsets] for every row but row 4 of four lines: it returns,
    having sent the set-DDRAM-address command for [col] plus the offset of
    the row, and a row above the line count is taken for the last line. *)
Theorem setCursor_in_bounds {h : LiquidTWI_h} Wire_status fuel l col row :
  responsive Wire_status fuel ->
  is_u8 row ->
  1 <= _numlines l <= 4 ->
  (_numlines l = 4 -> row <> 4) ->
  let r := if row >? _numlines l then _numlines l - 1 else row in
  0 <= r < 4 /\
  (exists offset,
     nth_error row_offsets (Z.to_nat r) = Some offset /\
     performs (setCursor Wire_status fuel col row) l tt l
       (set_DDRAM_address l (col + offset))) /\
  (_numlines l < row ->
   forall t,
     setCursor Wire_status fuel col row l t
     = setCursor Wire_status fuel col (_numlines l - 1) l t).
Proof.
  intros Hresp Hrow Hlines Hfour r. unfold is_u8 in Hrow.
  assert (Hr : setCursor_row (_numlines l) row = r).
  { unfold setCursor_row, r. destruct (row >? _numlines l); [|reflexivity].
    apply u8_small. unfold is_u8. lia. }
  assert (Hrange : 0 <= r < 4).
  { unfold r. destruct (Z.gtb_spec row (_numlines l)); lia. }
  split; [exact Hrange|]. split.
  - assert (Hsome : exists offset,
               nth_error row_offsets (Z.to_nat r) = Some offset).
    { assert (Hcases : r = 0 \/ r = 1 \/ r = 2 \/ r = 3) by lia.
      destruct Hcases as [E | [E | [E | E]]]; rewrite E; eexists; reflexivity. }
    destruct Hsome as [offset Hoffset]. exists offset.
    split; [exact Hoffset|].
    apply (performs_setCursor Wire_status fuel Hresp col row l offset);
      rewrite Hr; [exact Hoffset | lia].
  - intros Habove t. unfold setCursor, bind, gets.
    replace (setCursor_row (_numlines l) (_numlines l - 1))
      with (setCursor_row (_numlines l) row); [reflexivity|].
    rewrite Hr. unfold r, setCursor_row.
    rewrite (proj2 (Z.gtb_gt _ _)) by lia.
    destruct (Z.gtb_spec (_numlines l - 1) (_numlines l)); [lia | reflexivity].
Qed.

Lemma setCursor_in_bounds_witness :
  responsive always_ack 1 /\
  is_u8 7 /\
  performs (setCursor (h := datasheet) always_ack 1 5 7)
    (begun (h := datasheet) zeroed 2 0) tt (begun (h := datasheet) zeroed 2 0)
    (set_DDRAM_address (h := datasheet) (begun (h := datasheet) zeroed 2 0)
       (5 + 0x40)).
Proof.
  assert (Hrow : is_u8 7) by (unfold is_u8; lia).
  split; [exact always_ack_responsive|]. split; [exact Hrow|].
  destruct (@setCursor_in_bounds datasheet always_ack 1
              (begun (h := datasheet) zeroed 2 0) 5 7
              always_ack_responsive Hrow)
    as (_ & (offset & Hoffset & Hrun) & _).
  - cbn. lia.
  - cbn. intros E. discriminate E.
  - cbn in Hoffset. injection Hoffset as <-. exact Hrun.
Defined.

(** ** begin *)

(** X8: [begin] never reads [cols], and reads [dotsize] as a condition and
    only for a one-line display: two calls that differ in these only run
    alike. *)
Theorem begin_ignores_cols_and_dotsize
    {h : LiquidTWI_h} Wire_status fuel cols cols' lines dotsize dotsize' l t :
  lines <> 1 \/ nonzero dotsize = nonzero dotsize' ->
  begin Wire_status fuel cols lines dotsize l t
  = begin Wire_status fuel cols' lines dotsize' l t.
Proof.
  intros [Hlines|Hsame]; unfold begin.
  - rewrite (proj2 (Z.eqb_neq _ _) Hlines), !Bool.andb_false_r. reflexivity.
  - rewrite Hsame. reflexivity.
Qed.

Lemma begin_ignores_cols_and_dotsize_witness :
  (2 <> 1 \/ nonzero 0 = nonzero 1) /\
  begin (h := datasheet) always_ack 1 16 2 0 zeroed 0%nat
  = begin (h := datasheet) always_ack 1 20 2 1 zeroed 0%nat.
Proof.
  assert (H : 2 <> 1 \/ nonzero 0 = nonzero 1) by (left; discriminate).
  split; [exact H|].
  exact (@begin_ignores_cols_and_dotsize datasheet always_ack 1 16 20 2 0 1
           zeroed 0%nat H).
Defined.

Lemma begin_displayfunction_again {h : LiquidTWI_h} df lines dotsize :
  is_u8 df ->
  begin_displayfunction (begin_displayfunction df lines dotsize) lines dotsize
  = begin_displayfunction df lines dotsize.
Proof.
  intros Hdf. unfold begin_displayfunction.
  destruct (lines >? 1), (nonzero dotsize && (lines =? 1));
    try reflexivity;
    apply u8_eq_bits; intros n Hn;
    rewrite ?Z.lor_spec, ?with_bits by exact Hn;
    rewrite ?Z.lor_spec, ?with_bits by exact Hn;
    destruct (Z.testbit df n), (Z.testbit LCD_2LINE n),
      (Z.testbit LCD_5x10DOTS n); reflexivity.
Qed.

(** X9: a second [begin] with the same lines and dot size leaves the
    object that the first left. *)
Theorem begin_twice {h : LiquidTWI_h} Wire_status fuel cols cols' lines dotsize l :
  responsive Wire_status fuel ->
  is_u8 (_displayfunction l) ->
  returns (sketch Wire_status fuel
             [m_begin cols lines dotsize; m_begin cols' lines dotsize])
    l tt (begun l lines dotsize).
Proof.
  intros Hresp Hdf. cbn [sketch invoke].
  eapply returns_eq.
  - eapply returns_bind; [apply returns_begin; exact Hresp|].
    eapply returns_bind; [apply returns_begin; exact Hresp | apply returns_ret].
  - unfold begun. cbn [_displayfunction _i2cAddr].
    rewrite begin_displayfunction_again by exact Hdf. reflexivity.
Qed.

Lemma begin_twice_witness :
  responsive always_ack 1 /\
  is_u8 (_displayfunction (LiquidTWI_ (h := datasheet) zeroed 0)) /\
  returns (sketch (h := datasheet) always_ack 1 [m_begin 16 2 0; m_begin 16 2 0])
    (LiquidTWI_ (h := datasheet) zeroed 0) tt
    (begun (h := datasheet) (LiquidTWI_ (h := datasheet) zeroed 0) 2 0).
Proof.
  assert (Hdf : is_u8 (_displayfunction (LiquidTWI_ (h := datasheet) zeroed 0)))
    by (unfold is_u8; cbn; lia).
  split; [exact always_ack_responsive|]. split; [exact Hdf|].
  exact (@begin_twice datasheet always_ack 1 16 16 2 0
           (LiquidTWI_ (h := datasheet) zeroed 0) always_ack_responsive Hdf).
Defined.

(** X10: [begin] assigns [LCD_DISPLAYON] to [_displaycontrol] before it
    sends its display, clear and entry-mode commands, so these go out with
    the backlight bit low whatever the backlight was; its last write
    switches the backlight on, and the flag is on in the object it
    leaves. *)
Theorem begin_backlight {h : LiquidTWI_h} Wire_status fuel cols lines dotsize l :
  responsive Wire_status fuel ->
  backlight_is_bit3 ->
  let a := _i2cAddr l in
  let l' := begun l lines dotsize in
  let dc := u8 (Z.lor (u8 LCD_DISPLAYON) LCD_DISPLAYON) in
  exists before,
    performs (begin Wire_status fuel cols lines dotsize) l tt l'
      (before
       ++ bursts a (nibble_pairs false (u8 (Z.lor LCD_DISPLAYCONTROL dc)) false)
       ++ bursts a (nibble_pairs false (u8 LCD_CLEARDISPLAY) false)
       ++ [DelayMicroseconds 2000]
       ++ bursts a (nibble_pairs false
                      (u8 (Z.lor LCD_ENTRYMODESET (_displaymode l'))) false)
       ++ burst a 0x80) /\
    lit l' = true.
Proof.
  intros Hresp Hheader a l' dc.
  pose proof Hheader as (HBL & Hdisplay & _).
  assert (Hoff : nonzero (Z.land dc LCD_BACKLIGHT) = false).
  { rewrite HBL, nonzero_land_8. unfold dc.
    rewrite with_bits, u8_testbit, Hdisplay by lia. reflexivity. }
  assert (Hon : lit l' = true).
  { rewrite (lit_bit3 Hheader). apply bitWrite_3. }
  eexists. split; [|exact Hon].
  eapply performs_eq.
  - apply (performs_begin Wire_status fuel Hresp cols lines dotsize l).
  - reflexivity.
  - fold dc. rewrite Hoff.
    replace (backlight_bit (bitWrite dc 3 HIGH)) with 0x80.
    + rewrite !app_assoc. reflexivity.
    + unfold backlight_bit. fold dc in Hon.
      change (nonzero (Z.land (bitWrite dc 3 HIGH) LCD_BACKLIGHT))
        with (lit l').
      rewrite Hon. reflexivity.
Qed.

Lemma begin_backlight_witness :
  responsive always_ack 1 /\
  backlight_is_bit3 (h := datasheet) /\
  exists before,
    performs (begin (h := datasheet) always_ack 1 16 2 0)
      (set_displaycontrol 0x08 zeroed) tt
      (begun (h := datasheet) (set_displaycontrol 0x08 zeroed) 2 0)
      (before
       ++ bursts (h := datasheet) 0 (nibble_pairs false 0x0C false)
       ++ bursts (h := datasheet) 0 (nibble_pairs false 0x01 false)
       ++ [DelayMicroseconds 2000]
       ++ bursts (h := datasheet) 0 (nibble_pairs false 0x06 false)
       ++ burst (h := datasheet) 0 0x80) /\
    lit (h := datasheet)
      (begun (h := datasheet) (set_displaycontrol 0x08 zeroed) 2 0) = true.
Proof.
  split; [exact always_ack_responsive|]. split; [exact datasheet_backlight|].
  exact (@begin_backlight datasheet always_ack 1 16 2 0
           (set_displaycontrol 0x08 zeroed)
           always_ack_responsive datasheet_backlight).
Defined.

(** ** setBacklight *)

Lemma bit3_elsewhere n : 0 <= n < 8 -> n <> 3 -> Z.testbit (Z.shiftl 1 3) n = false.
Proof.
  intros Hn Hne. change (Z.shiftl 1 3) with (2 ^ 3).
  rewrite Z.pow2_bits_eqb by lia. apply Z.eqb_neq. lia.
Qed.

Lemma bitWrite_3_elsewhere x status n :
  0 <= n < 8 -> n <> 3 -> Z.testbit (bitWrite x 3 status) n = Z.testbit x n.
Proof.
  intros Hn Hne. unfold bitWrite. destruct (nonzero status).
  - rewrite with_bits, bit3_elsewhere by assumption. apply Bool.orb_false_r.
  - rewrite without_bits, bit3_elsewhere by assumption. apply Bool.andb_true_r.
Qed.

Lemma bitWrite_3_again x status' status :
  bitWrite (bitWrite x 3 status') 3 status = bitWrite x 3 status.
Proof.
  assert (E : forall y, bitWrite y 3 status = u8 (bitWrite y 3 status)).
  { intros y. symmetry. apply u8_small. unfold bitWrite.
    destruct (nonzero status); apply u8_range. }
  rewrite (E (bitWrite x 3 status')), (E x).
  apply u8_eq_bits. intros n Hn.
  destruct (Z.eq_dec n 3) as [->|Hne].
  - rewrite !bitWrite_3. reflexivity.
  - rewrite !bitWrite_3_elsewhere by assumption. reflexivity.
Qed.

Lemma returns_setBacklight {h : LiquidTWI_h} Wire_status fuel status l :
  responsive Wire_status fuel ->
  returns (setBacklight Wire_status fuel status) l tt
    (set_displaycontrol (bitWrite (_displaycontrol l) 3 status) l).
Proof.
  intros Hresp.
  exact (performs_returns _ _ _ _ _
           (performs_setBacklight Wire_status fuel Hresp status l)).
Qed.

(** X14: [setBacklight(status)] writes bit 3 of [_displaycontrol] and no
    other bit or field: the bit is on exactly when [status] is not zero,
    the display, cursor and blink flags kept in the other bits stay, and
    after two calls the object is that of the last call alone. *)
Theorem setBacklight_only_bit3 {h : LiquidTWI_h} Wire_status fuel status' status l :
  responsive Wire_status fuel ->
  let l1 := set_displaycontrol (bitWrite (_displaycontrol l) 3 status) l in
  returns (setBacklight Wire_status fuel status) l tt l1 /\
  Z.testbit (_displaycontrol l1) 3 = nonzero status /\
  (forall n, 0 <= n < 8 -> n <> 3 ->
     Z.testbit (_displaycontrol l1) n = Z.testbit (_displaycontrol l) n) /\
  returns (sketch Wire_status fuel [m_setBacklight status'; m_setBacklight status])
    l tt l1.
Proof.
  intros Hresp l1. split; [|split; [|split]].
  - apply returns_setBacklight. exact Hresp.
  - apply bitWrite_3.
  - intros n Hn Hne. apply bitWrite_3_elsewhere; assumption.
  - cbn [sketch invoke]. eapply returns_eq.
    + eapply returns_bind; [apply returns_setBacklight; exact Hresp|].
      eapply returns_bind;
        [apply returns_setBacklight; exact Hresp | apply returns_ret].
    + unfold l1, set_displaycontrol. cbn.
      rewrite bitWrite_3_again. reflexivity.
Qed.

Lemma setBacklight_only_bit3_witness :
  responsive always_ack 1 /\
  returns (setBacklight (h := datasheet) always_ack 1 LOW)
    (begun (h := datasheet) zeroed 2 0) tt
    (set_displaycontrol 0x04 (begun (h := datasheet) zeroed 2 0)) /\
  returns (sketch (h := datasheet) always_ack 1
             [m_setBacklight HIGH; m_setBacklight LOW])
    (begun (h := datasheet) zeroed 2 0) tt
    (set_displaycontrol 0x04 (begun (h := datasheet) zeroed 2 0)).
Proof.
  split; [exact always_ack_responsive|].
  destruct (@setBacklight_only_bit3 datasheet always_ack 1 HIGH LOW
              (begun (h := datasheet) zeroed 2 0) always_ack_responsive)
    as (Hone & _ & _ & Htwo).
  split; [exact Hone | exact Htwo].
Defined.

(** ** A bus that never acknowledges, a bus that does *)

Lemma never_bind_l {A B} (m : M A) (f : A -> M B) :
  never_returns m -> never_returns (bind m f).
Proof.
  intros Hm l. eapply post_bind; [apply Hm|]. intros a l1 r1 [].
Qed.

Lemma never_bind_r {A B} (m : M A) (f : A -> M B) :
  (forall a, never_returns (f a)) -> never_returns (bind m f).
Proof.
  intros Hf l. eapply post_bind with (Q1 := fun _ _ _ => True).
  - intros t a l' t' calls _. exact I.
  - intros a l1 r1 _. eapply post_weaken; [apply Hf|]. intros b l2 r2 [].
Qed.

Section Stuck.

Context {h : LiquidTWI_h}.
Variable Wire_status : nat -> Z.
Variable fuel : nat.
Hypothesis Wire_stuck : forall n, Wire_status n <> 0.

Lemma never_burstBits value : never_returns (burstBits Wire_status fuel value).
Proof.
  intros l t a l' t' calls E. unfold burstBits, bind in E. cbn in E.
  rewrite (while_endTransmission_spins Wire_status l fuel t) in E;
    [discriminate E|].
  intros k. apply Wire_stuck.
Qed.

Lemma never_send value mode : never_returns (send Wire_status fuel value mode).
Proof.
  unfold send. apply never_bind_r. intros dc.
  apply never_bind_l. apply never_burstBits.
Qed.

(** Finds the first transmission of a member function. *)
Ltac first_burst :=
  match goal with
  | |- never_returns (burstBits _ _ _) => apply never_burstBits
  | |- never_returns (send _ _ _ _) => apply never_send
  | |- never_returns (bind _ _) =>
      first [ apply never_bind_l; first_burst
            | apply never_bind_r; intros ?; first_burst ]
  end.

Lemma never_invoke m : never_returns (invoke Wire_status fuel m).
Proof.
  destruct m; cbn [invoke];
    unfold begin, begin_4bitmode, clear, home, setCursor,
      noDisplay, display, noCursor, cursor, noBlink, blink,
      scrollDisplayLeft, scrollDisplayRight, leftToRight, rightToLeft,
      autoscroll, noAutoscroll, createChar, setBacklight,
      command_displaycontrol, command_entrymode, command_functionset,
      write, command;
    first_burst.
Qed.

End Stuck.

(** X15: on a bus that never acknowledges no member function returns:
    every one of them comes to [burstBits], whose loop then retries for
    ever (in [setCursor] a read outside the table may come first). *)
Theorem stuck_bus_hangs_every_call
    {h : LiquidTWI_h} Wire_status fuel m ms l t a l' t' calls :
  (forall n, Wire_status n <> 0) ->
  sketch Wire_status fuel (m :: ms) l t <> Returns a l' t' calls.
Proof.
  intros Hstuck E.
  assert (Hnever : never_returns (sketch Wire_status fuel (m :: ms))).
  { cbn [sketch]. apply never_bind_l. apply never_invoke. exact Hstuck. }
  exact (Hnever l _ _ _ _ _ E).
Qed.

Lemma stuck_bus_hangs_every_call_witness :
  (forall n, stuck n <> 0) /\
  forall fuel a l' t' calls,
    sketch (h := datasheet) stuck fuel [m_clear; m_home] zeroed 0%nat
    <> Returns a l' t' calls.
Proof.
  assert (Hstuck : forall n, stuck n <> 0) by (intros n; discriminate).
  split; [exact Hstuck|].
  intros fuel a l' t' calls.
  exact (@stuck_bus_hangs_every_call datasheet stuck fuel m_clear [m_home]
           zeroed 0%nat a l' t' calls Hstuck).
Defined.

(** X16: on a bus that acknowledges every member function returns when
    its arguments are in range: none waits for anything but the
    transport. *)
Theorem responsive_bus_returns_every_call
    {h : LiquidTWI_h} Wire_status fuel m l :
  responsive Wire_status fuel ->
  in_range l m ->
  exists l', returns (invoke Wire_status fuel m) l tt l'.
Proof.
  intros Hresp Hrange. destruct m; cbn [invoke]; cbn [in_range] in Hrange.
  - eexists. apply returns_begin. exact Hresp.
  - eexists. exact (performs_returns _ _ _ _ _
                      (performs_clear Wire_status fuel Hresp l)).
  - eexists. exact (performs_returns _ _ _ _ _
                      (performs_home Wire_status fuel Hresp l)).
  - assert (Hsome : exists offset,
               nth_error row_offsets
                 (Z.to_nat (setCursor_row (_numlines l) row)) = Some offset).
    { destruct (nth_error row_offsets
                  (Z.to_nat (setCursor_row (_numlines l) row))) eqn:E;
        [eexists; reflexivity|].
      apply nth_error_None in E. cbn [row_offsets length] in E. lia. }
    destruct Hsome as [offset Hoffset]. eexists.
    exact (performs_returns _ _ _ _ _
             (performs_setCursor Wire_status fuel Hresp col row l offset
                Hoffset (proj1 Hrange))).
  - eexists. exact (performs_returns _ _ _ _ _
                      (performs_displaycontrol_clear Wire_status fuel Hresp _ l)).
  - eexists. exact (performs_returns _ _ _ _ _
                      (performs_displaycontrol_set Wire_status fuel Hresp _ l)).
  - eexists. exact (performs_returns _ _ _ _ _
                      (performs_displaycontrol_clear Wire_status fuel Hresp _ l)).
  - eexists. exact (performs_returns _ _ _ _ _
                      (performs_displaycontrol_set Wire_status fuel Hresp _ l)).
  - eexists. exact (performs_returns _ _ _ _ _
                      (performs_displaycontrol_clear Wire_status fuel Hresp _ l)).
  - eexists. exact (performs_returns _ _ _ _ _
                      (performs_displaycontrol_set Wire_status fuel Hresp _ l)).
  - eexists. exact (performs_returns _ _ _ _ _
                      (performs_command Wire_status fuel Hresp _ l (u8_range _))).
  - eexists. exact (performs_returns _ _ _ _ _
                      (performs_command Wire_status fuel Hresp _ l (u8_range _))).
  - eexists. exact (performs_returns _ _ _ _ _
                      (performs_displaymode_set Wire_status fuel Hresp _ l)).
  - eexists. exact (performs_returns _ _ _ _ _
                      (performs_displaymode_clear Wire_status fuel Hresp _ l)).
  - eexists. exact (performs_returns _ _ _ _ _
                      (performs_displaymode_set Wire_status fuel Hresp _ l)).
  - eexists. exact (performs_returns _ _ _ _ _
                      (performs_displaymode_clear Wire_status fuel Hresp _ l)).
  - destruct Hrange as [Hlen Hrows]. eexists.
    exact (performs_returns _ _ _ _ _
             (performs_createChar Wire_status fuel location charmap l
                Hresp Hlen Hrows)).
  - eexists. exact (performs_returns _ _ _ _ _
                      (performs_command Wire_status fuel Hresp value l Hrange)).
  - exists l. eapply returns_bind; [|apply returns_ret].
    exact (performs_returns _ _ _ _ _
             (performs_write Wire_status fuel Hresp value l Hrange)).
  - eexists. apply returns_setBacklight. exact Hresp.
Qed.

Lemma responsive_bus_returns_every_call_witness :
  responsive (nack_first 3) 4 /\
  in_range (begun (h := datasheet) zeroed 2 0) (m_setCursor 15 1) /\
  exists l',
    returns (invoke (h := datasheet) (nack_first 3) 4 (m_setCursor 15 1))
      (begun (h := datasheet) zeroed 2 0) tt l'.
Proof.
  assert (Hresp : responsive (nack_first 3) 4).
  { intros t. exists (3 - t)%nat. split; [lia|].
    unfold nack_first.
    destruct (Nat.ltb_spec (t + (3 - t)) 3); [lia | reflexivity]. }
  assert (Hrange : in_range (begun (h := datasheet) zeroed 2 0) (m_setCursor 15 1))
    by (cbn; lia).
  split; [exact Hresp|]. split; [exact Hrange|].
  exact (@responsive_bus_returns_every_call datasheet (nack_first 3) 4
           (m_setCursor 15 1) (begun (h := datasheet) zeroed 2 0) Hresp Hrange).
Defined.
